(** * photutils.datasets.make: synthetic images of Gaussian sources and noise

    A shallow embedding of [photutils/datasets/make.py].  Pixel values are
    IEEE binary64 numbers (numpy's [float64], here Rocq's primitive floats),
    Poisson counts are integers, a source table is an ordered association of
    column names to columns, Python exceptions are values of [exn], and the
    pseudo-random generators ([numpy.random.RandomState] objects, among them
    numpy's global one) live in an explicit store that every sampling call
    reads and updates.

    numpy's samplers, astropy's [Gaussian2D] and [discretize_model] and the
    units are external libraries: they are parameters of the development. *)

From Stdlib Require Import ZArith List String Ascii PrimFloat Uint63 Lia Bool.
From stdpp Require Import gmap strings list.

Set Warnings "-inexact-float".
Local Open Scope string_scope.
Local Open Scope list_scope.

(** ** Exceptions and results *)

Inductive exn : Type :=
| ValueError (msg : string)
| KeyError (key : string)
| IndexError (msg : string)
| TypeError (msg : string)
| AttributeError (msg : string)
| LibraryError (msg : string)
| Unsupported (what : string).

Inductive result (A : Type) : Type :=
| Ok (a : A)
| Raise (e : exn).
Arguments Ok {A} a.
Arguments Raise {A} e.

#[global] Instance result_ret : MRet result := fun A a => Ok a.
#[global] Instance result_bind : MBind result := fun A B f m =>
  match m with
  | Ok a => f a
  | Raise e => Raise e
  end.

#[global] Instance result_fmap : FMap result := fun A B f m =>
  match m with
  | Ok a => Ok (f a)
  | Raise e => Raise e
  end.

Definition is_Ok {A} (r : result A) : bool :=
  match r with Ok _ => true | Raise _ => false end.

(** The double quote character, which occurs in the messages of the source. *)
Definition dq : string := String (ascii_of_nat 34) EmptyString.

(** ** Python's [str.format], for positional string arguments

    The template is scanned from left to right.  [{{] and [}}] stand for
    single braces, [{name}] is a replacement field.  The argument of a field
    is found from the part of its name before the first of [.], [[], [!] and
    [:]: no name numbers the fields automatically, digits index the positional
    arguments, and anything else is looked up among the keyword arguments, of
    which a call [template.format(arg0, ...)] has none: that is a [KeyError]
    whose key is the name.  Fields that go on with an attribute, an index, a
    conversion or a format specification are outside this fragment. *)

Inductive numbering : Type :=
| NotNumbered
| Automatic (next : nat)
| Manual.

Inductive scan : Type :=
| Text
| Opened
| Closed
| Field (name : string).

Definition is_digit (c : ascii) : bool :=
  let n := nat_of_ascii c in (48 <=? n)%nat && (n <=? 57)%nat.

Fixpoint all_digits (s : string) : bool :=
  match s with
  | EmptyString => true
  | String c s' => is_digit c && all_digits s'
  end.

Fixpoint index_of_digits (acc : nat) (s : string) : nat :=
  match s with
  | EmptyString => acc
  | String c s' => index_of_digits (10 * acc + (nat_of_ascii c - 48)) s'
  end.

Definition is_name_end (c : ascii) : bool :=
  let n := nat_of_ascii c in
  (n =? 46)%nat || (n =? 91)%nat || (n =? 33)%nat || (n =? 58)%nat.

(** The name of the argument and what follows it inside the field. *)
Fixpoint split_field (s : string) : string * string :=
  match s with
  | EmptyString => (EmptyString, EmptyString)
  | String c s' =>
      if is_name_end c then (EmptyString, s)
      else let '(name, rest) := split_field s' in (String c name, rest)
  end.

Definition positional (args : list string) (i : nat) : result string :=
  match args !! i with
  | Some a => Ok a
  | None => Raise (IndexError "tuple index out of range")
  end.

Definition get_field (args : list string) (num : numbering) (field : string)
  : result (string * numbering) :=
  let '(name, rest) := split_field field in
  value ←
    match name with
    | EmptyString =>
        match num with
        | Manual =>
            Raise (ValueError
              "cannot switch from manual field specification to automatic field numbering")
        | NotNumbered => a ← positional args 0; Ok (a, Automatic 1)
        | Automatic i => a ← positional args i; Ok (a, Automatic (S i))
        end
    | _ =>
        if all_digits name then
          match num with
          | Automatic _ =>
              Raise (ValueError
                "cannot switch from automatic field numbering to manual field specification")
          | _ => a ← positional args (index_of_digits 0 name); Ok (a, Manual)
          end
        else Raise (KeyError name)
    end;
  match rest with
  | EmptyString => Ok value
  | _ => Raise (Unsupported "attribute, index, conversion or format specification")
  end.

Definition open_brace : ascii := ascii_of_nat 123.
Definition close_brace : ascii := ascii_of_nat 125.

Fixpoint format_scan (args : list string) (template : string) (st : scan)
    (num : numbering) (out : string) : result string :=
  match template with
  | EmptyString =>
      match st with
      | Text => Ok out
      | Opened => Raise (ValueError "Single '{' encountered in format string")
      | Closed => Raise (ValueError "Single '}' encountered in format string")
      | Field _ => Raise (ValueError "expected '}' before end of string")
      end
  | String c rest =>
      match st with
      | Text =>
          if Ascii.eqb c open_brace then format_scan args rest Opened num out
          else if Ascii.eqb c close_brace then format_scan args rest Closed num out
          else format_scan args rest Text num (out +:+ String c EmptyString)
      | Opened =>
          if Ascii.eqb c open_brace
          then format_scan args rest Text num (out +:+ String c EmptyString)
          else if Ascii.eqb c close_brace then
            match get_field args num EmptyString with
            | Ok (a, num') => format_scan args rest Text num' (out +:+ a)
            | Raise e => Raise e
            end
          else format_scan args rest (Field (String c EmptyString)) num out
      | Closed =>
          if Ascii.eqb c close_brace
          then format_scan args rest Text num (out +:+ String c EmptyString)
          else Raise (ValueError "Single '}' encountered in format string")
      | Field name =>
          if Ascii.eqb c close_brace then
            match get_field args num name with
            | Ok (a, num') => format_scan args rest Text num' (out +:+ a)
            | Raise e => Raise e
            end
          else if Ascii.eqb c open_brace
          then Raise (ValueError "unexpected '{' in field name")
          else format_scan args rest (Field (name +:+ String c EmptyString)) num out
      end
  end.

Definition str_format (template : string) (args : list string) : result string :=
  format_scan args template Text NotNumbered EmptyString.

(** ** numpy arrays

    A two-dimensional array keeps its shape next to its rows, so that an array
    without rows still has a number of columns. *)

Record ndarray (A : Type) : Type := NdArray {
  nd_shape : nat * nat;
  nd_data : list (list A)
}.
Arguments NdArray {A} nd_shape nd_data.
Arguments nd_shape {A} n.
Arguments nd_data {A} n.

Definition nd_well_shaped {A} (a : ndarray A) : Prop :=
  length (nd_data a) = (nd_shape a).1 ∧
  Forall (λ row, length row = (nd_shape a).2) (nd_data a).

(** [a[i, j]] *)
Definition pixel {A} (a : ndarray A) (i j : nat) : option A :=
  row ← nd_data a !! i; row !! j.

Definition nd_map {A B} (f : A → B) (a : ndarray A) : ndarray B :=
  NdArray (nd_shape a) (map (map f) (nd_data a)).

Definition nd_zip_with {A B C} (f : A → B → C) (a : ndarray A) (b : ndarray B)
  : ndarray C :=
  NdArray (nd_shape a) (zip_with (zip_with f) (nd_data a) (nd_data b)).

(** An elementwise operation on two arrays of one shape.  numpy broadcasts
    some pairs of different shapes and refuses the others; the arrays this
    module combines are made with the same shape, and any other pair is
    answered here with numpy's refusal. *)
Definition nd_binop {A B C} (f : A → B → C) (a : ndarray A) (b : ndarray B)
  : result (ndarray C) :=
  if decide (nd_shape a = nd_shape b) then Ok (nd_zip_with f a b)
  else Raise (ValueError "operands could not be broadcast together").

Definition np_zeros (shape : nat * nat) : ndarray float :=
  NdArray shape (replicate shape.1 (replicate shape.2 0%float)).

(** [np.indices(shape)]: the row index and the column index of every pixel. *)
Definition np_indices (shape : nat * nat) : ndarray Z * ndarray Z :=
  (NdArray shape (map (λ i, replicate shape.2 (Z.of_nat i)) (seq 0 shape.1)),
   NdArray shape (map (λ _, map Z.of_nat (seq 0 shape.2)) (seq 0 shape.1))).

Definition np_pi : float := 0x1.921fb54442d18p+1%float.

(** An [int64] value as a [float64]. *)
Definition float_of_Z (z : Z) : float :=
  if (z <? 0)%Z then (- PrimFloat.of_uint63 (Uint63.of_Z (- z)))%float
  else PrimFloat.of_uint63 (Uint63.of_Z z).

(** ** astropy tables

    The columns in the order they were added.  Every column of a table has
    the length of the table ([Table_wf]); astropy keeps that when a column is
    set. *)

Abbreviation Column := (list float).
Abbreviation Table := (list (string * Column)).

Definition colnames (t : Table) : list string := t.*1.

Definition Table_len (t : Table) : nat :=
  match t with
  | [] => 0
  | (_, c) :: _ => length c
  end.

Definition Table_wf (t : Table) : bool :=
  bool_decide (NoDup (colnames t)) &&
  forallb (λ nc, (length nc.2 =? Table_len t)%nat) t.

(** [name in table.colnames] *)
Definition has_column (t : Table) (name : string) : bool :=
  bool_decide (name ∈ colnames t).

(** [table[name]] *)
Fixpoint Table_getitem (t : Table) (name : string) : result Column :=
  match t with
  | [] => Raise (KeyError name)
  | (n, c) :: t' => if String.eqb n name then Ok c else Table_getitem t' name
  end.

(** [column[i]] *)
Definition Column_getitem (c : Column) (i : nat) : result float :=
  match c !! i with
  | Some x => Ok x
  | None => Raise (IndexError "index out of bounds")
  end.

(** [row[name]] for row [i] of the table *)
Definition Row_getitem (t : Table) (i : nat) (name : string) : result float :=
  c ← Table_getitem t name; Column_getitem c i.

Fixpoint replace_column (t : Table) (name : string) (c : Column) : Table :=
  match t with
  | [] => []
  | (n, c0) :: t' =>
      if String.eqb n name then (n, c) :: t' else (n, c0) :: replace_column t' name c
  end.

(** [table[name] = values] *)
Definition Table_setitem (t : Table) (name : string) (c : Column) : result Table :=
  match t with
  | [] => Ok [(name, c)]
  | _ =>
      if (length c =? Table_len t)%nat then
        if has_column t name then Ok (replace_column t name c)
        else Ok (t ++ [(name, c)])
      else Raise (ValueError "Inconsistent data column lengths")
  end.

(** The table without the column [name]. *)
Definition drop_column (name : string) (t : Table) : Table :=
  filter (λ nc, nc.1 ≠ name) t.

(** ** The Gaussian model, discretization modes and FITS headers *)

Record Gaussian2D : Type := MkGaussian2D {
  amplitude : float;
  x_mean : float;
  y_mean : float;
  x_stddev : float;
  y_stddev : float;
  theta : float
}.

Inductive discretize_mode : Type :=
| Center
| LinearInterp
| Oversample
| Integrate.

Inductive card : Type :=
| CardStr (s : string)
| CardInt (n : Z).

Definition wcs_dict : Type := list (string * card).

(** What [make_gaussian_sources] passes to [fits.ImageHDU] as header:
    [WCS(d).to_header()] for its own dictionary, [WCS(wcsheader)] for the
    caller's. *)
Inductive Header : Type :=
| WCS_to_header (d : wcs_dict)
| WCS_object (d : wcs_dict).

(** The way [random_state] is given: nothing, an integer seed, or a
    [RandomState] object, named by its place in the store. *)
Inductive random_state_arg : Type :=
| RS_None
| RS_Seed (seed : Z)
| RS_Instance (obj : nat).

(** The generator a function samples from. *)
Inductive prng_ref : Type :=
| GlobalRand
| Obj (obj : nat).

(** ** External libraries *)

Class Libraries : Type := {
  (** The state of a [numpy.random.RandomState] and the generator a valid
      seed gives. *)
  Generator : Type;
  seeded : Z → Generator;
  (** One sample of each distribution, with the generator after it. *)
  normal1 : float → float → Generator → float * Generator;
  poisson1 : float → Generator → Z * Generator;
  uniform1 : float → float → Generator → float * Generator;
  (** The exception with which numpy refuses the parameters of a
      distribution, if it does. *)
  normal_invalid : float → float → option exn;
  poisson_invalid : float → option exn;
  uniform_invalid : float → float → option exn;
  (** [astropy.units]: the valid unit specifications. *)
  Unit : Type;
  (** [Gaussian2D(...)(x, y)] at one pixel, with the integer indices that
      [np.indices] gives. *)
  Gaussian2D_evaluate : Gaussian2D → Z → Z → float;
  (** [astropy.convolution.discretize_model(model, x_range, y_range, mode,
      factor)] *)
  discretize_model :
    Gaussian2D → Z * Z → Z * Z → discretize_mode → float → result (ndarray float)
}.

(** A small instance, on which the functions can be run: the generator is a
    counter, a sample is a function of the counter, [scale] and [lam] must
    not be negative, a model is its amplitude at its mean and 0 elsewhere,
    and its discretization is its amplitude over the factor at every pixel. *)
Definition toy : Libraries := {|
  Generator := Z;
  seeded := λ seed, seed;
  normal1 := λ loc scale g, ((loc + scale * float_of_Z (g mod 3))%float, (g + 1)%Z);
  poisson1 := λ lam g, ((g mod 5)%Z, (g + 1)%Z);
  uniform1 := λ low high g,
    ((low + (high - low) * (float_of_Z (g mod 4) / 4))%float, (g + 1)%Z);
  normal_invalid := λ loc scale,
    if (scale <? 0)%float then Some (ValueError "scale < 0") else None;
  poisson_invalid := λ lam,
    if (lam <? 0)%float then Some (ValueError "lam < 0") else None;
  uniform_invalid := λ low high, None;
  Unit := string;
  Gaussian2D_evaluate := λ model x y,
    if (PrimFloat.eqb (float_of_Z x) (x_mean model)
        && PrimFloat.eqb (float_of_Z y) (y_mean model))%bool
    then amplitude model else 0%float;
  discretize_model := λ model x_range y_range mode factor,
    Ok (NdArray (Z.to_nat (y_range.2 - y_range.1), Z.to_nat (x_range.2 - x_range.1))
          (replicate (Z.to_nat (y_range.2 - y_range.1))
             (replicate (Z.to_nat (x_range.2 - x_range.1))
                (amplitude model / factor)%float)))
|}.

(** Two tables of two sources for it, the same but for an ['amplitude']
    column, and a table without flux and amplitude. *)
Definition toy_table : Table :=
  [("flux", [10; 20]%float); ("x_mean", [1; 2]%float); ("y_mean", [0; 1]%float);
   ("x_stddev", [1; 1]%float); ("y_stddev", [1; 2]%float); ("theta", [0; 0]%float)].

Definition toy_table_with_amplitude : Table :=
  ("amplitude", [7; 9]%float) :: toy_table.

Definition toy_table_without_flux : Table :=
  [("x_mean", [1; 2]%float); ("y_mean", [0; 1]%float)].

(** The first table with a column that is not read, and without ['theta']. *)
Definition toy_table_with_id : Table := ("id", [1; 2]%float) :: toy_table.

Definition toy_table_without_theta : Table :=
  [("amplitude", [7; 9]%float); ("x_mean", [1; 2]%float); ("y_mean", [0; 1]%float);
   ("x_stddev", [1; 1]%float); ("y_stddev", [1; 2]%float)].

(** ** The module *)

Section Datasets.

Context {libs : Libraries}.

(** *** Values *)

Inductive value : Type :=
| Ndarray (a : ndarray float)
| NdarrayInt (a : ndarray Z)
| Quantity (a : ndarray float) (u : Unit)
| ImageHDU (data : value) (header : option Header).

(** [u.Quantity(image, unit=unit)]: a quantity holds floats. *)
Definition Quantity_new (image : value) (unit : Unit) : result value :=
  match image with
  | Ndarray a => Ok (Quantity a unit)
  | NdarrayInt a => Ok (Quantity (nd_map float_of_Z a) unit)
  | Quantity _ _ => Raise (Unsupported "unit conversion")
  | ImageHDU _ _ => Raise (TypeError "an ImageHDU is not an array")
  end.

(** [a + b] for the operands this module adds: a float image and a noise
    image without units. *)
Definition value_add (a b : value) : result value :=
  match a, b with
  | Ndarray x, Ndarray y => Ndarray <$> nd_binop PrimFloat.add x y
  | Ndarray x, NdarrayInt y =>
      Ndarray <$> nd_binop PrimFloat.add x (nd_map float_of_Z y)
  | _, _ => Raise (Unsupported "addition of these operands")
  end.

(** *** The store of generators and the computations over it *)

Record World : Type := MkWorld {
  global_rand : Generator;
  objects : gmap nat Generator
}.

Definition Comp (A : Type) : Type := World → result A * World.

#[local] Instance Comp_ret : MRet Comp := λ A a w, (Ok a, w).
#[local] Instance Comp_bind : MBind Comp := λ A B f m w,
  match m w with
  | (Ok a, w') => f a w'
  | (Raise e, w') => (Raise e, w')
  end.

#[local] Instance Comp_fmap : FMap Comp := λ A B f m w,
  match m w with
  | (Ok a, w') => (Ok (f a), w')
  | (Raise e, w') => (Raise e, w')
  end.

Definition raise {A} (e : exn) : Comp A := λ w, (Raise e, w).
Definition lift {A} (r : result A) : Comp A := λ w, (r, w).

(** [np.random.RandomState(seed)]: a new object. *)
Definition RandomState_new (seed : Z) : Comp prng_ref := λ w,
  if ((0 <=? seed) && (seed <? 2 ^ 32))%Z then
    let l := fresh (dom (objects w)) in
    (Ok (Obj l), MkWorld (global_rand w) (<[l := seeded seed]> (objects w)))
  else (Raise (ValueError "Seed must be between 0 and 2**32 - 1"), w).

(** Modelled from the spec: [check_random_state] is imported from
    [photutils.utils], which is not among the sources.  The spec speaks of
    a seedable pseudo-random generator; the docstrings here accept an
    integer or a [RandomState] and default to [None].  No seed samples from
    numpy's global generator, an integer makes a new generator seeded with
    it, and a [RandomState] is used as it is. *)
Definition check_random_state (random_state : random_state_arg) : Comp prng_ref :=
  match random_state with
  | RS_None => mret GlobalRand
  | RS_Seed seed => RandomState_new seed
  | RS_Instance obj => mret (Obj obj)
  end.

Definition generator_of (prng : prng_ref) (w : World) : option Generator :=
  match prng with
  | GlobalRand => Some (global_rand w)
  | Obj l => objects w !! l
  end.

Definition store_generator (prng : prng_ref) (g : Generator) (w : World) : World :=
  match prng with
  | GlobalRand => MkWorld g (objects w)
  | Obj l => MkWorld (global_rand w) (<[l := g]> (objects w))
  end.

(** Run a sampler on the generator behind [prng] and store the generator it
    leaves.  A reference to no object does not occur in Python. *)
Definition sample {A} (prng : prng_ref) (f : Generator → A * Generator) : Comp A :=
  λ w,
  match generator_of prng w with
  | Some g0 => let '(a, g) := f g0 in (Ok a, store_generator prng g w)
  | None => (Raise (LibraryError "no such RandomState"), w)
  end.

(** One sample per element of [params], in order. *)
Fixpoint draw_each {P A} (one : P → Generator → A * Generator) (params : list P)
    (g : Generator) : list A * Generator :=
  match params with
  | [] => ([], g)
  | p :: ps =>
      let '(x, g1) := one p g in
      let '(xs, g2) := draw_each one ps g1 in
      (x :: xs, g2)
  end.

Definition draws {A} (one : Generator → A * Generator) (n : nat)
  : Generator → list A * Generator :=
  draw_each (λ _ : unit, one) (replicate n tt).

Fixpoint first_invalid (checks : list (option exn)) : option exn :=
  match checks with
  | [] => None
  | Some e :: _ => Some e
  | None :: rest => first_invalid rest
  end.

Definition or_raise {A} (invalid : option exn) (m : Comp A) : Comp A :=
  match invalid with
  | Some e => raise e
  | None => m
  end.

(** [prng.normal(loc, scale, size=shape)] *)
Definition RandomState_normal (prng : prng_ref) (loc scale : float)
    (size : nat * nat) : Comp (ndarray float) :=
  or_raise (normal_invalid loc scale)
    (rows ← sample prng (draws (draws (normal1 loc scale) size.2) size.1);
     mret (NdArray size rows)).

(** [prng.poisson(lam, size=shape)] *)
Definition RandomState_poisson (prng : prng_ref) (lam : float) (size : nat * nat)
  : Comp (ndarray Z) :=
  or_raise (poisson_invalid lam)
    (rows ← sample prng (draws (draws (poisson1 lam) size.2) size.1);
     mret (NdArray size rows)).

(** [prng.poisson(image)]: one sample per pixel, with the pixel as mean. *)
Definition RandomState_poisson_image (prng : prng_ref) (lam : ndarray float)
  : Comp (ndarray Z) :=
  or_raise (first_invalid (poisson_invalid <$> concat (nd_data lam)))
    (rows ← sample prng (draw_each (draw_each poisson1) (nd_data lam));
     mret (NdArray (nd_shape lam) rows)).

(** [prng.uniform(low, high, size)] *)
Definition RandomState_uniform (prng : prng_ref) (low high : float) (size : nat)
  : Comp Column :=
  or_raise (uniform_invalid low high)
    (sample prng (draws (uniform1 low high) size)).

(** *** make_noise_image *)

Definition invalid_type_template : string :=
  "Invalid type: {0}. Use one of {" +:+ dq +:+ "gaussian" +:+ dq +:+ ", "
    +:+ dq +:+ "poisson" +:+ dq +:+ "}.".

Definition make_noise_image (image_shape : nat * nat) (type : string)
    (mean stddev : option float) (unit : option Unit)
    (random_state : random_state_arg) : Comp value :=
  match mean with
  | None => raise (ValueError (dq +:+ "mean" +:+ dq +:+ " must be input"))
  | Some mean =>
      prng ← check_random_state random_state;
      image ←
        (if String.eqb type "gaussian" then
           match stddev with
           | None =>
               raise (ValueError
                 (dq +:+ "stddev" +:+ dq +:+ " must be input for Gaussian noise"))
           | Some stddev =>
               Ndarray <$> RandomState_normal prng mean stddev image_shape
           end
         else if String.eqb type "poisson" then
           NdarrayInt <$> RandomState_poisson prng mean image_shape
         else
           msg ← lift (str_format invalid_type_template [type]);
           raise (ValueError msg));
      match unit with
      | Some unit => lift (Quantity_new image unit)
      | None => mret image
      end
  end.

(** *** make_poisson_noise *)

Definition make_poisson_noise (image : value) (random_state : random_state_arg)
  : Comp value :=
  prng ← check_random_state random_state;
  match image with
  | Quantity a unit =>
      counts ← RandomState_poisson_image prng a;
      mret (Quantity (nd_map float_of_Z counts) unit)
  | Ndarray a => NdarrayInt <$> RandomState_poisson_image prng a
  | NdarrayInt a =>
      NdarrayInt <$> RandomState_poisson_image prng (nd_map float_of_Z a)
  | ImageHDU _ _ => raise (TypeError "an ImageHDU is not an array")
  end.

(** [fits.ImageHDU(image, header=header)]: the header is none or a FITS
    header.  A [WCS] object is not one, and [fits.ImageHDU] refuses it. *)
Definition fits_ImageHDU (image : value) (header : option Header) : result value :=
  match header with
  | Some (WCS_object _) => Raise (TypeError "a WCS object is not a FITS header")
  | _ => Ok (ImageHDU image header)
  end.

(** *** make_gaussian_sources *)

(** [model(x, y)] on index arrays. *)
Definition Gaussian2D_call (model : Gaussian2D) (x y : ndarray Z) : ndarray float :=
  nd_zip_with (Gaussian2D_evaluate model) x y.

(** The amplitudes of the sources: lines 277 to 285. *)
Definition source_amplitudes (source_table : Table) : result Column :=
  if has_column source_table "flux" then
    flux ← Table_getitem source_table "flux";
    xs ← Table_getitem source_table "x_stddev";
    ys ← Table_getitem source_table "y_stddev";
    Ok (zip_with PrimFloat.div flux
          (zip_with PrimFloat.mul ((λ s, (2 * np_pi * s)%float) <$> xs) ys))
  else if has_column source_table "amplitude" then
    Table_getitem source_table "amplitude"
  else
    Raise (ValueError ("either " +:+ dq +:+ "amplitude" +:+ dq +:+ " or " +:+ dq
                       +:+ "flux" +:+ dq
                       +:+ " must be columns in the input source_table")).

(** The model of row [i]. *)
Definition source_model (source_table : Table) (amplitude : Column) (i : nat)
  : result Gaussian2D :=
  a ← Column_getitem amplitude i;
  xm ← Row_getitem source_table i "x_mean";
  ym ← Row_getitem source_table i "y_mean";
  xs ← Row_getitem source_table i "x_stddev";
  ys ← Row_getitem source_table i "y_stddev";
  th ← Row_getitem source_table i "theta";
  Ok (MkGaussian2D a xm ym xs ys th).

(** What one source adds to the image. *)
Definition source_image (image_shape : nat * nat) (oversample : float)
    (x y : ndarray Z) (model : Gaussian2D) : result (ndarray float) :=
  if PrimFloat.eqb oversample 1 then Ok (Gaussian2D_call model x y)
  else discretize_model model (0%Z, Z.of_nat image_shape.2)
         (0%Z, Z.of_nat image_shape.1) Oversample oversample.

(** The loop over the rows of the table. *)
Fixpoint add_sources (image_shape : nat * nat) (oversample : float)
    (x y : ndarray Z) (source_table : Table) (amplitude : Column)
    (rows : list nat) (image : ndarray float) : result (ndarray float) :=
  match rows with
  | [] => Ok image
  | i :: rest =>
      model ← source_model source_table amplitude i;
      d ← source_image image_shape oversample x y model;
      image' ← nd_binop PrimFloat.add image d;
      add_sources image_shape oversample x y source_table amplitude rest image'
  end.

Definition wcs_not_hdu_message : string :=
  "wcs header only works with hdu output, use keyword 'hdu=True'".

(** [int(n / 2)] for a dimension [n] of the image. *)
Definition half (n : nat) : Z := (Z.of_nat n / 2)%Z.

Definition default_wcs (image_shape : nat * nat) : wcs_dict :=
  [("CTYPE1", CardStr "RA---TAN"); ("CTYPE2", CardStr "DEC--TAN");
   ("CRPIX1", CardInt (half image_shape.2));
   ("CRPIX2", CardInt (half image_shape.1))].

Definition make_gaussian_sources (image_shape : nat * nat) (source_table : Table)
    (oversample : float) (unit : option Unit) (hdu wcs : bool)
    (wcsheader : option wcs_dict) : result value :=
  let image := np_zeros image_shape in
  let '(y, x) := np_indices image_shape in
  amplitude ← source_amplitudes source_table;
  image ← add_sources image_shape oversample x y source_table amplitude
            (seq 0 (Table_len source_table)) image;
  image ← match unit with
          | Some unit => Quantity_new (Ndarray image) unit
          | None => Ok (Ndarray image)
          end;
  if wcs && negb hdu then Raise (ValueError wcs_not_hdu_message)
  else if hdu then
    let header :=
      if wcs then
        match wcsheader with
        | None => Some (WCS_to_header (default_wcs image_shape))
        | Some d => Some (WCS_object d)
        end
      else None in
    fits_ImageHDU image header
  else Ok image.

(** *** make_random_gaussians *)

Definition make_random_gaussians (n_sources : nat)
    (flux_range xmean_range ymean_range xstddev_range ystddev_range : float * float)
    (amplitude_range : option (float * float))
    (random_state : random_state_arg) : Comp Table :=
  prng ← check_random_state random_state;
  let sources : Table := [] in
  sources ←
    match amplitude_range with
    | None =>
        c ← RandomState_uniform prng flux_range.1 flux_range.2 n_sources;
        lift (Table_setitem sources "flux" c)
    | Some amplitude_range =>
        c ← RandomState_uniform prng amplitude_range.1 amplitude_range.2 n_sources;
        lift (Table_setitem sources "amplitude" c)
    end;
  c ← RandomState_uniform prng xmean_range.1 xmean_range.2 n_sources;
  sources ← lift (Table_setitem sources "x_mean" c);
  c ← RandomState_uniform prng ymean_range.1 ymean_range.2 n_sources;
  sources ← lift (Table_setitem sources "y_mean" c);
  c ← RandomState_uniform prng xstddev_range.1 xstddev_range.2 n_sources;
  sources ← lift (Table_setitem sources "x_stddev" c);
  c ← RandomState_uniform prng ystddev_range.1 ystddev_range.2 n_sources;
  sources ← lift (Table_setitem sources "y_stddev" c);
  c ← RandomState_uniform prng 0 (2 * np_pi) n_sources;
  sources ← lift (Table_setitem sources "theta" c);
  mret sources.

(** *** make_4gaussians_image *)

Definition four_gaussians_table : result Table :=
  table ← Table_setitem [] "amplitude" [50; 70; 150; 210]%float;
  table ← Table_setitem table "x_mean" [160; 25; 150; 90]%float;
  table ← Table_setitem table "y_mean" [70; 40; 25; 60]%float;
  table ← Table_setitem table "x_stddev" [15.2; 5.1; 3; 8.1]%float;
  table ← Table_setitem table "y_stddev" [2.6; 2.5; 3; 4.7]%float;
  Table_setitem table "theta"
    ((λ d, (d * np_pi / 180)%float) <$> [145; 20; 0; 60]%float).

Definition make_4gaussians_image (hdu wcs : bool) (wcsheader : option wcs_dict)
  : Comp value :=
  table ← lift four_gaussians_table;
  let shape := (100, 200) in
  sources ← lift (make_gaussian_sources shape table 1 None hdu wcs wcsheader);
  noise ← make_noise_image shape "gaussian" (Some 5%float) (Some 5%float) None
            (RS_Seed 12345);
  if hdu then
    match sources with
    | ImageHDU data header =>
        data ← lift (value_add data noise);
        mret (ImageHDU data header)
    | _ => raise (AttributeError "data")
    end
  else lift (value_add sources noise).

(** *** make_100gaussians_image *)

Definition make_100gaussians_image : Comp value :=
  let n_sources := 100 in
  let flux_range := (500, 1000)%float in
  let xmean_range := (0, 500)%float in
  let ymean_range := (0, 300)%float in
  let xstddev_range := (1, 5)%float in
  let ystddev_range := (1, 5)%float in
  table ← make_random_gaussians n_sources flux_range xmean_range ymean_range
            xstddev_range ystddev_range None (RS_Seed 12345);
  let shape := (300, 500) in
  image1 ← lift (make_gaussian_sources shape table 1 None false false None);
  noise ← make_noise_image shape "gaussian" (Some 5%float) (Some 2%float) None
            (RS_Seed 12345);
  lift (value_add image1 noise).

(** *** Notions the statements use *)

(** A [random_state] the generator of which exists: no seed, a seed numpy
    accepts, or an object of the store. *)
Definition usable (random_state : random_state_arg) (w : World) : Prop :=
  match random_state with
  | RS_None => True
  | RS_Seed seed => (0 ≤ seed < 2 ^ 32)%Z
  | RS_Instance obj => is_Some (objects w !! obj)
  end.

(** No generator of [w] has been sampled from on the way to [w']. *)
Definition untouched (w w' : World) : Prop :=
  global_rand w' = global_rand w ∧
  ∀ l g, objects w !! l = Some g → objects w' !! l = Some g.

Definition mean_missing_message : string := dq +:+ "mean" +:+ dq +:+ " must be input".

(** The key of the [KeyError] that formatting the message for an invalid
    type ends in. *)
Definition alternatives_key : string :=
  dq +:+ "gaussian" +:+ dq +:+ ", " +:+ dq +:+ "poisson" +:+ dq.

Definition no_amplitude_message : string :=
  "either " +:+ dq +:+ "amplitude" +:+ dq +:+ " or " +:+ dq +:+ "flux" +:+ dq
    +:+ " must be columns in the input source_table".

(** The columns every source needs besides its flux or amplitude. *)
Definition shape_columns : list string :=
  ["x_mean"; "y_mean"; "x_stddev"; "y_stddev"; "theta"].

Definition has_required_columns (t : Table) : bool :=
  (has_column t "flux" || has_column t "amplitude") &&
  forallb (has_column t) shape_columns.

(** The array in a returned image, whatever wraps it. *)
Fixpoint array_of (v : value) : option (ndarray float) :=
  match v with
  | Ndarray a => Some a
  | NdarrayInt _ => None
  | Quantity a _ => Some a
  | ImageHDU data _ => array_of data
  end.

(** The calls in which an image can be returned as asked: a header goes
    with an HDU only, and then it is the one [make_gaussian_sources] makes
    itself, since the [WCS] object made of the caller's [wcsheader] is not a
    header. *)
Definition header_can_be_made (hdu wcs : bool) (wcsheader : option wcs_dict) : bool :=
  negb wcs || (hdu && match wcsheader with None => true | Some _ => false end).

(** [make_gaussian_sources] returns [image]: as it is by default, with a
    unit or in an HDU when asked to, in every call in which the header can be
    made. *)
Definition returns_image (image_shape : nat * nat) (source_table : Table)
    (oversample : float) (image : ndarray float) : Prop :=
  ∀ unit hdu wcs wcsheader,
    header_can_be_made hdu wcs wcsheader = true →
    ∃ v, make_gaussian_sources image_shape source_table oversample unit hdu wcs
           wcsheader = Ok v ∧
         array_of v = Some image ∧
         (unit = None → hdu = false → v = Ndarray image).

(** astropy's [discretize_model] gives [d] for [model], an array over the
    pixels of the image. *)
Definition discretized (image_shape : nat * nat) (oversample : float)
    (model : Gaussian2D) (d : ndarray float) : Prop :=
  discretize_model model (0%Z, Z.of_nat image_shape.2) (0%Z, Z.of_nat image_shape.1)
    Oversample oversample = Ok d ∧
  nd_shape d = image_shape ∧ nd_well_shaped d.

(** The header of the HDU that [make_gaussian_sources] returns. *)
Definition hdu_header (image_shape : nat * nat) (wcs : bool)
    (wcsheader : option wcs_dict) : option Header :=
  if wcs then
    match wcsheader with
    | None => Some (WCS_to_header (default_wcs image_shape))
    | Some d => Some (WCS_object d)
    end
  else None.

(** [m] touches no generator but the one behind [prng], and does to it what
    [pure] does. *)
Definition runs_on {A} (prng : prng_ref) (m : Comp A)
    (pure : Generator → result A * Generator) : Prop :=
  ∀ w g, generator_of prng w = Some g →
         m w = ((pure g).1, store_generator prng (pure g).2 w).

(** The generator that a call with [random_state] samples from first. *)
Definition initial_generator (random_state : random_state_arg) (w : World)
  : option Generator :=
  match random_state with
  | RS_None => Some (global_rand w)
  | RS_Seed seed =>
      if ((0 <=? seed) && (seed <? 2 ^ 32))%Z then Some (seeded seed) else None
  | RS_Instance obj => objects w !! obj
  end.

(** The first column of a table of random sources and its bounds. *)
Definition brightness_column (flux_range : float * float)
    (amplitude_range : option (float * float)) : string * (float * float) :=
  match amplitude_range with
  | None => ("flux", flux_range)
  | Some amplitude_range => ("amplitude", amplitude_range)
  end.

Definition random_column_names (flux_range : float * float)
    (amplitude_range : option (float * float)) : list string :=
  (brightness_column flux_range amplitude_range).1 :: shape_columns.

Definition random_column_ranges
    (flux_range xmean_range ymean_range xstddev_range ystddev_range : float * float)
    (amplitude_range : option (float * float)) : list (float * float) :=
  [(brightness_column flux_range amplitude_range).2; xmean_range; ymean_range;
   xstddev_range; ystddev_range; (0, 2 * np_pi)%float].

(** [n] samples from each of [ranges], one range after the other. *)
Definition uniform_columns (n : nat) (ranges : list (float * float))
  : Generator → list Column * Generator :=
  draw_each (λ r, draws (uniform1 r.1 r.2) n) ranges.

(** The composition that the spec gives for the two example images. *)
Definition plus (a b : Comp value) : Comp value :=
  x ← a; y ← b; lift (value_add x y).

Definition four_rows : Table :=
  [("amplitude", [50; 70; 150; 210]%float);
   ("x_mean", [160; 25; 150; 90]%float);
   ("y_mean", [70; 40; 25; 60]%float);
   ("x_stddev", [15.2; 5.1; 3; 8.1]%float);
   ("y_stddev", [2.6; 2.5; 3; 4.7]%float);
   ("theta", [145 * np_pi / 180; 20 * np_pi / 180; 0 * np_pi / 180;
              60 * np_pi / 180]%float)].

Definition composed_4gaussians : Comp value :=
  plus (lift (make_gaussian_sources (100, 200) four_rows 1 None false false None))
       (make_noise_image (100, 200) "gaussian" (Some 5%float) (Some 5%float) None
          (RS_Seed 12345)).

Definition composed_100gaussians : Comp value :=
  plus (table ← make_random_gaussians 100 (500, 1000)%float (0, 500)%float
                  (0, 300)%float (1, 5)%float (1, 5)%float None (RS_Seed 12345);
        lift (make_gaussian_sources (300, 500) table 1 None false false None))
       (make_noise_image (300, 500) "gaussian" (Some 5%float) (Some 2%float) None
          (RS_Seed 12345)).

(** The shape of the array in a value, and that its rows fit the shape. *)
Fixpoint value_shape (v : value) : nat * nat :=
  match v with
  | Ndarray a => nd_shape a
  | NdarrayInt a => nd_shape a
  | Quantity a _ => nd_shape a
  | ImageHDU data _ => value_shape data
  end.

Fixpoint value_well_shaped (v : value) : Prop :=
  match v with
  | Ndarray a => nd_well_shaped a
  | NdarrayInt a => nd_well_shaped a
  | Quantity a _ => nd_well_shaped a
  | ImageHDU data _ => value_well_shaped data
  end.

(** [m] leaves every generator but the one behind [prng] as it is. *)
Definition touches_only {A} (prng : prng_ref) (m : Comp A) : Prop :=
  ∀ w, (prng ≠ GlobalRand → global_rand (m w).2 = global_rand w) ∧
       (∀ l, prng ≠ Obj l → objects (m w).2 !! l = objects w !! l).

(** What a call with [random_state] may change on the way from [w] to [w']:
    without a seed the global generator, with a seed nothing that was there,
    with a [RandomState] that object. *)
Definition changes_its_generator_only (random_state : random_state_arg)
    (w w' : World) : Prop :=
  match random_state with
  | RS_None => objects w' = objects w
  | RS_Seed _ => untouched w w'
  | RS_Instance obj =>
      global_rand w' = global_rand w ∧
      ∀ l, l ≠ obj → objects w' !! l = objects w !! l
  end.

(** [m] has the same outcome in every store, and leaves the generators of
    the store as they were. *)
Definition reproducible {A} (m : Comp A) : Prop :=
  ∃ r, ∀ w, (m w).1 = r ∧ untouched w (m w).2.

(** The columns that [make_gaussian_sources] reads. *)
Definition read_columns : list string := "flux" :: "amplitude" :: shape_columns.

(** *** make_noise_image: validation *)

Lemma invalid_type_template_format (type : string) :
  str_format invalid_type_template [type] = Raise (KeyError alternatives_key).
Proof. reflexivity. Qed.

Lemma check_random_state_untouched random_state w :
  untouched w (check_random_state random_state w).2.
Proof.
  destruct random_state as [|seed|obj]; simpl; try (split; done).
  unfold RandomState_new. case_match; simpl; [|split; done].
  split; [done|]. intros l g Hl. simpl.
  rewrite lookup_insert_ne; [done|].
  intros <-. pose proof (is_fresh (dom (objects w))) as Hfresh.
  apply Hfresh, elem_of_dom. eauto.
Qed.

Lemma check_random_state_usable random_state w :
  usable random_state w →
  ∃ prng w' g, check_random_state random_state w = (Ok prng, w') ∧
               generator_of prng w' = Some g.
Proof.
  destruct random_state as [|seed|obj]; simpl.
  - intros _. by exists GlobalRand, w, (global_rand w).
  - intros [H0 H1]. unfold RandomState_new.
    assert (((0 <=? seed) && (seed <? 2 ^ 32))%Z = true) as ->.
    { apply andb_true_iff. split; [by apply Z.leb_le | by apply Z.ltb_lt]. }
    eexists _, _, (seeded seed). split; [done|]. simpl. apply lookup_insert_eq.
  - intros [g Hg]. by exists (Obj obj), w, g.
Qed.

(** C3 (defect of the code): for a type that is neither ['gaussian'] nor
    ['poisson'], with [mean] given and the generator obtained,
    [make_noise_image] returns no image, but the exception is not the
    [ValueError] naming the type and the alternatives: the braces around
    the alternatives make a replacement field of them, [str.format] looks
    its name up among the keyword arguments, and a [KeyError] with the
    alternatives as key leaves the function. *)
Theorem make_noise_image_invalid_type image_shape type mean stddev unit
    random_state w prng w' :
  type ≠ "gaussian" → type ≠ "poisson" →
  check_random_state random_state w = (Ok prng, w') →
  make_noise_image image_shape type (Some mean) stddev unit random_state w
  = (Raise (KeyError alternatives_key), w').
Proof.
  intros Hg Hp Hrs. unfold make_noise_image, mbind, Comp_bind. rewrite Hrs.
  apply String.eqb_neq in Hg, Hp. rewrite Hg, Hp.
  unfold lift. by rewrite invalid_type_template_format.
Qed.

(** C4: [make_noise_image] raises a [ValueError] at once when a required
    parameter is missing.  Without [mean] it raises before anything else
    happens: the store of generators is the one it was called in.  For
    Gaussian noise without [stddev] it raises a [ValueError] and has sampled
    from no generator.  For Poisson noise with [mean] given, [stddev] is not
    required: without it the call returns an image whenever the generator is
    there and numpy accepts [mean]. *)
Theorem make_noise_image_required_parameters image_shape type mean stddev unit
    random_state w :
  make_noise_image image_shape type None stddev unit random_state w
    = (Raise (ValueError mean_missing_message), w) ∧
  (∃ msg, (make_noise_image image_shape "gaussian" mean None unit random_state w).1
          = Raise (ValueError msg)) ∧
  untouched w (make_noise_image image_shape "gaussian" mean None unit random_state w).2 ∧
  (∀ m, usable random_state w → poisson_invalid m = None →
        ∃ image, (make_noise_image image_shape "poisson" (Some m) None unit
                    random_state w).1 = Ok image).
Proof.
  split; [done|]. split; [|split].
  - destruct mean as [m|]; [|by eexists].
    unfold make_noise_image, mbind, Comp_bind.
    destruct random_state as [|seed|obj]; simpl; try by eexists.
    unfold RandomState_new. destruct (_ && _); simpl; by eexists.
  - destruct mean as [m|]; [|by split].
    pose proof (check_random_state_untouched random_state w) as Hu.
    unfold make_noise_image, mbind, Comp_bind.
    destruct (check_random_state random_state w) as [[prng|e] w']; simpl in *; done.
  - intros m Hrs Hm.
    destruct (check_random_state_usable _ _ Hrs) as (prng & w' & g & Hc & Hg).
    unfold make_noise_image, mbind, Comp_bind. rewrite Hc. simpl.
    unfold RandomState_poisson, fmap, Comp_fmap, or_raise. rewrite Hm.
    unfold mbind, Comp_bind, sample. rewrite Hg.
    destruct (draws _ _ g) as [rows g']. simpl.
    destruct unit as [u|]; simpl; by eexists.
Qed.

(** C9: for Poisson noise with [mean] given, [make_noise_image] does not
    look at [stddev]: two calls that differ in nothing but [stddev], absent
    or not, give the same outcome and leave the same store, and the image is
    the one [prng.poisson(lam=mean, size=image_shape)] draws. *)
Theorem make_noise_image_poisson_ignores_stddev image_shape mean stddev stddev'
    unit random_state w :
  make_noise_image image_shape "poisson" (Some mean) stddev unit random_state w
  = make_noise_image image_shape "poisson" (Some mean) stddev' unit random_state w ∧
  make_noise_image image_shape "poisson" (Some mean) stddev unit random_state w
  = (prng ← check_random_state random_state;
     counts ← RandomState_poisson prng mean image_shape;
     match unit with
     | Some unit => mret (Quantity (nd_map float_of_Z counts) unit)
     | None => mret (NdarrayInt counts)
     end) w.
Proof.
  split; [done|].
  unfold make_noise_image, mbind, Comp_bind.
  destruct (check_random_state random_state w) as [[prng|e] w0]; [|done]. simpl.
  unfold fmap, Comp_fmap.
  destruct (RandomState_poisson prng mean image_shape w0) as [[counts|e] w1]; [|done].
  by destruct unit.
Qed.

(** *** make_gaussian_sources: validation *)

(** C5: for a source table with neither a ['flux'] nor an ['amplitude']
    column, [make_gaussian_sources] raises the [ValueError] that asks for
    one of them, and returns no image. *)
Theorem make_gaussian_sources_needs_amplitude image_shape source_table oversample
    unit hdu wcs wcsheader :
  has_column source_table "flux" = false →
  has_column source_table "amplitude" = false →
  make_gaussian_sources image_shape source_table oversample unit hdu wcs wcsheader
  = Raise (ValueError no_amplitude_message).
Proof.
  intros Hf Ha. unfold make_gaussian_sources, source_amplitudes.
  rewrite Hf, Ha. done.
Qed.

(** *** Tables *)

Lemma has_column_elem t name : has_column t name = true ↔ name ∈ colnames t.
Proof. unfold has_column. apply bool_decide_eq_true. Qed.

Lemma Table_getitem_has t name :
  has_column t name = true → ∃ c, Table_getitem t name = Ok c ∧ (name, c) ∈ t.
Proof.
  rewrite has_column_elem. unfold colnames.
  induction t as [|[n c] t IH]; simpl.
  - intros H. by apply elem_of_nil in H.
  - intros H. destruct (String.eqb n name) eqn:E.
    + apply String.eqb_eq in E as ->. exists c. split; [done|]. left.
    + apply elem_of_cons in H as [->|H].
      * by rewrite String.eqb_refl in E.
      * destruct (IH H) as (c' & Hc & Hin). exists c'. split; [done|]. by right.
Qed.

Lemma Table_wf_length t name c :
  Table_wf t = true → (name, c) ∈ t → length c = Table_len t.
Proof.
  unfold Table_wf. intros [_ H]%andb_true_iff Hin.
  rewrite forallb_forall in H. apply list_elem_of_In in Hin.
  apply H in Hin. simpl in Hin. by apply Nat.eqb_eq in Hin.
Qed.

Lemma Table_getitem_drop t name other :
  name ≠ other → Table_getitem (drop_column other t) name = Table_getitem t name.
Proof.
  intros Hne. unfold drop_column. induction t as [|[n c] t IH]; [done|].
  rewrite filter_cons. simpl. destruct (decide (n ≠ other)) as [Hn|Hn]; simpl.
  - by rewrite IH.
  - apply dec_stable in Hn as ->.
    destruct (String.eqb other name) eqn:E; [|done].
    apply String.eqb_eq in E. congruence.
Qed.

Lemma has_column_drop t name other :
  name ≠ other → has_column (drop_column other t) name = has_column t name.
Proof.
  intros Hne. unfold has_column, drop_column, colnames.
  apply bool_decide_ext. rewrite !list_elem_of_fmap. split.
  - intros ([n c] & -> & [_ H]%list_elem_of_filter). by exists (n, c).
  - intros ([n c] & -> & H). exists (n, c). split; [done|].
    apply list_elem_of_filter. by split.
Qed.

Lemma Column_getitem_lt (c : Column) i :
  i < length c → ∃ x, Column_getitem c i = Ok x.
Proof.
  intros H. unfold Column_getitem.
  destruct (lookup_lt_is_Some_2 c i H) as [x ->]. by exists x.
Qed.

Lemma Row_getitem_has t i name :
  Table_wf t = true → has_column t name = true → i < Table_len t →
  ∃ x, Row_getitem t i name = Ok x.
Proof.
  intros Hwf Hc Hi. destruct (Table_getitem_has _ _ Hc) as (c & Hget & Hin).
  unfold Row_getitem. rewrite Hget. simpl.
  apply Column_getitem_lt. by rewrite (Table_wf_length _ _ _ Hwf Hin).
Qed.

Lemma source_amplitudes_length t :
  Table_wf t = true → has_required_columns t = true →
  ∃ a, source_amplitudes t = Ok a ∧ length a = Table_len t.
Proof.
  intros Hwf [Hfa Hcols]%andb_true_iff. unfold source_amplitudes.
  simpl in Hcols. repeat (apply andb_true_iff in Hcols as [? Hcols]).
  destruct (has_column t "flux") eqn:Hf.
  - destruct (Table_getitem_has t "flux") as (f & -> & Hfin); [done|].
    destruct (Table_getitem_has t "x_stddev") as (xs & -> & Hxin); [done|].
    destruct (Table_getitem_has t "y_stddev") as (ys & -> & Hyin); [done|].
    simpl. eexists. split; [done|].
    rewrite !length_zip_with, length_fmap.
    rewrite (Table_wf_length _ _ _ Hwf Hfin), (Table_wf_length _ _ _ Hwf Hxin),
      (Table_wf_length _ _ _ Hwf Hyin). lia.
  - simpl in Hfa. rewrite Hfa.
    destruct (Table_getitem_has t "amplitude") as (a & -> & Hin); [done|].
    exists a. split; [done|]. by apply (Table_wf_length _ _ _ Hwf Hin).
Qed.

Lemma source_model_valid t a i :
  Table_wf t = true → has_required_columns t = true →
  length a = Table_len t → i < Table_len t →
  ∃ m, source_model t a i = Ok m.
Proof.
  intros Hwf [_ Hcols]%andb_true_iff Ha Hi. unfold source_model.
  simpl in Hcols. repeat (apply andb_true_iff in Hcols as [? Hcols]).
  destruct (Column_getitem_lt a i) as [x ->]; [lia|].
  destruct (Row_getitem_has t i "x_mean") as [? ->]; [done..|].
  destruct (Row_getitem_has t i "y_mean") as [? ->]; [done..|].
  destruct (Row_getitem_has t i "x_stddev") as [? ->]; [done..|].
  destruct (Row_getitem_has t i "y_stddev") as [? ->]; [done..|].
  destruct (Row_getitem_has t i "theta") as [? ->]; [done..|].
  simpl. by eexists.
Qed.

Lemma source_models_valid t a rows :
  Table_wf t = true → has_required_columns t = true →
  length a = Table_len t → Forall (λ i, i < Table_len t) rows →
  ∃ models, Forall2 (λ i m, source_model t a i = Ok m) rows models.
Proof.
  intros Hwf Hreq Ha. induction 1 as [|i rows Hi _ [models IH]].
  - exists []. constructor.
  - destruct (source_model_valid t a i) as [m Hm]; [done..|].
    exists (m :: models). by constructor.
Qed.

(** *** Arrays *)

Lemma np_zeros_well_shaped shape : nd_well_shaped (np_zeros shape).
Proof.
  split; simpl; [by rewrite length_replicate|].
  apply Forall_replicate. by rewrite length_replicate.
Qed.

Lemma pixel_np_zeros shape i j :
  i < shape.1 → j < shape.2 → pixel (np_zeros shape) i j = Some 0%float.
Proof.
  intros Hi Hj. unfold pixel, np_zeros. simpl.
  rewrite (lookup_replicate_2 _ _ _ Hi). simpl. by apply lookup_replicate_2.
Qed.

Lemma np_indices_shape shape :
  nd_shape (np_indices shape).1 = shape ∧ nd_shape (np_indices shape).2 = shape.
Proof. done. Qed.

Lemma np_indices_well_shaped shape :
  nd_well_shaped (np_indices shape).1 ∧ nd_well_shaped (np_indices shape).2.
Proof.
  split; (split; simpl; [by rewrite length_map, length_seq|]);
    apply Forall_forall; intros row [k [-> _]]%list_elem_of_fmap.
  - by rewrite length_replicate.
  - by rewrite length_map, length_seq.
Qed.

Lemma pixel_np_indices shape i j :
  i < shape.1 → j < shape.2 →
  pixel (np_indices shape).1 i j = Some (Z.of_nat i) ∧
  pixel (np_indices shape).2 i j = Some (Z.of_nat j).
Proof.
  intros Hi Hj. unfold pixel, np_indices. simpl.
  rewrite !list_lookup_fmap, !(lookup_seq_lt _ _ _ Hi). simpl.
  rewrite (lookup_replicate_2 _ _ _ Hj), list_lookup_fmap, (lookup_seq_lt _ _ _ Hj).
  done.
Qed.

Lemma pixel_nd_zip_with {A B C} (f : A → B → C) a b i j :
  pixel (nd_zip_with f a b) i j
  = (u ← pixel a i j; v ← pixel b i j; Some (f u v)).
Proof.
  unfold pixel, nd_zip_with. simpl. rewrite lookup_zip_with.
  destruct (nd_data a !! i) as [ra|]; simpl; [|done].
  destruct (nd_data b !! i) as [rb|]; simpl.
  - rewrite lookup_zip_with. done.
  - by destruct (ra !! j).
Qed.

Lemma nd_zip_with_well_shaped {A B C} (f : A → B → C) a b :
  nd_shape a = nd_shape b → nd_well_shaped a → nd_well_shaped b →
  nd_well_shaped (nd_zip_with f a b).
Proof.
  intros Hs [Ha Hra] [Hb Hrb]. split; simpl.
  - rewrite length_zip_with. rewrite Ha, Hb, Hs. lia.
  - rewrite Hs in Hra. clear Ha Hb.
    revert Hra Hrb. generalize (nd_data b) as rb. generalize (nd_data a) as ra.
    induction ra as [|x ra IH]; intros rb Hra Hrb; [constructor|].
    destruct rb as [|y rb]; [constructor|]. simpl.
    inversion Hra; inversion Hrb; subst. constructor; [|by apply IH].
    rewrite length_zip_with, Hs. lia.
Qed.

Lemma Gaussian2D_call_pixel shape model i j :
  i < shape.1 → j < shape.2 →
  pixel (Gaussian2D_call model (np_indices shape).2 (np_indices shape).1) i j
  = Some (Gaussian2D_evaluate model (Z.of_nat j) (Z.of_nat i)).
Proof.
  intros Hi Hj. unfold Gaussian2D_call. rewrite pixel_nd_zip_with.
  destruct (pixel_np_indices shape i j Hi Hj) as [-> ->]. done.
Qed.

Lemma Gaussian2D_call_well_shaped shape model :
  nd_well_shaped (Gaussian2D_call model (np_indices shape).2 (np_indices shape).1).
Proof.
  apply nd_zip_with_well_shaped; [done|apply np_indices_well_shaped..].
Qed.

(** *** The loop of make_gaussian_sources *)

(** When the model of every row and its image exist, the loop adds the
    images up, one after the other. *)
Lemma add_sources_sum image_shape oversample x y t a rows models ds image :
  Forall2 (λ i m, source_model t a i = Ok m) rows models →
  Forall2 (λ m d, source_image image_shape oversample x y m = Ok d ∧
                  nd_shape d = image_shape) models ds →
  nd_shape image = image_shape →
  add_sources image_shape oversample x y t a rows image
  = Ok (fold_left (nd_zip_with PrimFloat.add) ds image).
Proof.
  intros Hm. revert ds image.
  induction Hm as [|i m rows models Him _ IH]; intros ds image Hd Hs.
  - by inversion Hd.
  - inversion Hd as [|? d ? ds' [Hsrc Hshape] Hd']; subst. simpl.
    rewrite Him. simpl. rewrite Hsrc. simpl.
    unfold nd_binop. rewrite Hshape, decide_True by done. simpl.
    by apply IH.
Qed.

Lemma fold_sum_shape (ds : list (ndarray float)) image :
  nd_shape (fold_left (nd_zip_with PrimFloat.add) ds image) = nd_shape image.
Proof. revert image. induction ds as [|d ds IH]; intros; [done|]. simpl. by rewrite IH. Qed.

Lemma fold_sum_well_shaped (ds : list (ndarray float)) image :
  Forall (λ d, nd_shape d = nd_shape image ∧ nd_well_shaped d) ds →
  nd_well_shaped image →
  nd_well_shaped (fold_left (nd_zip_with PrimFloat.add) ds image).
Proof.
  intros Hd. revert image Hd.
  induction ds as [|d ds IH]; intros image Hd Hw; [done|].
  inversion Hd as [|? ? [Hs Hdw] Hd']; subst. simpl. apply IH.
  - by simpl.
  - by apply nd_zip_with_well_shaped.
Qed.

Lemma fold_sum_pixel shape (models : list Gaussian2D) image i j v :
  i < shape.1 → j < shape.2 → pixel image i j = Some v →
  pixel (fold_left (nd_zip_with PrimFloat.add)
           ((λ m, Gaussian2D_call m (np_indices shape).2 (np_indices shape).1)
              <$> models) image) i j
  = Some (fold_left PrimFloat.add
            ((λ m, Gaussian2D_evaluate m (Z.of_nat j) (Z.of_nat i)) <$> models) v).
Proof.
  intros Hi Hj. revert image v.
  induction models as [|m models IH]; intros image v Hv; [done|].
  rewrite !fmap_cons. cbn [fold_left]. apply IH.
  rewrite pixel_nd_zip_with, Hv, (Gaussian2D_call_pixel shape m i j Hi Hj). done.
Qed.

(** What follows the loop: the unit, the check of [wcs] and the HDU. *)
Lemma make_gaussian_sources_finish image_shape t oversample a image :
  source_amplitudes t = Ok a →
  add_sources image_shape oversample (np_indices image_shape).2
    (np_indices image_shape).1 t a (seq 0 (Table_len t)) (np_zeros image_shape)
  = Ok image →
  returns_image image_shape t oversample image.
Proof.
  intros Ha Hloop unit hdu wcs wcsheader Hw.
  unfold make_gaussian_sources. rewrite Ha. simpl.
  simpl in Hloop. rewrite Hloop. simpl.
  destruct unit as [u|], hdu, wcs, wcsheader as [d|]; simpl in *;
    try discriminate Hw; eexists; done.
Qed.

Lemma point_sampled image_shape oversample models :
  PrimFloat.eqb oversample 1 = true →
  Forall2 (λ m d, source_image image_shape oversample (np_indices image_shape).2
                    (np_indices image_shape).1 m = Ok d ∧
                  nd_shape d = image_shape) models
    ((λ m, Gaussian2D_call m (np_indices image_shape).2 (np_indices image_shape).1)
       <$> models).
Proof.
  intros H1. apply Forall2_fmap_r, Forall_Forall2_diag, Forall_forall.
  intros m _. unfold source_image. by rewrite H1.
Qed.

(** C1: for every shape of the image and every table with the required
    columns, the amplitude of every source and the model of every row exist,
    and [make_gaussian_sources] returns an array of exactly that shape, by
    default and in every other call in which the header asked for can be made.
    With [oversample] equal to 1 every pixel is the sum, over the rows of the
    table in order and starting from 0, of the row's model at the indices of
    the pixel.  Otherwise the image is the sum of what [discretize_model]
    gives for every model in mode ['oversample'] with [oversample] as
    factor, over the ranges of the image. *)
Theorem make_gaussian_sources_image image_shape source_table oversample :
  Table_wf source_table = true →
  has_required_columns source_table = true →
  ∃ amplitude models,
    source_amplitudes source_table = Ok amplitude ∧
    Forall2 (λ i m, source_model source_table amplitude i = Ok m)
      (seq 0 (Table_len source_table)) models ∧
    (PrimFloat.eqb oversample 1 = true →
     ∃ image,
       returns_image image_shape source_table oversample image ∧
       nd_shape image = image_shape ∧ nd_well_shaped image ∧
       ∀ i j, i < image_shape.1 → j < image_shape.2 →
         pixel image i j
         = Some (fold_left PrimFloat.add
                   ((λ m, Gaussian2D_evaluate m (Z.of_nat j) (Z.of_nat i)) <$> models)
                   0%float)) ∧
    (PrimFloat.eqb oversample 1 = false →
     ∀ ds, Forall2 (discretized image_shape oversample) models ds →
       ∃ image,
         returns_image image_shape source_table oversample image ∧
         nd_shape image = image_shape ∧ nd_well_shaped image ∧
         image = fold_left (nd_zip_with PrimFloat.add) ds (np_zeros image_shape)).
Proof.
  intros Hwf Hreq.
  destruct (source_amplitudes_length _ Hwf Hreq) as (a & Ha & Hlen).
  destruct (source_models_valid source_table a (seq 0 (Table_len source_table)))
    as [models Hmodels]; [done..| |].
  { apply Forall_forall. intros i Hi%elem_of_seq. lia. }
  exists a, models. split; [done|]. split; [done|]. split.
  - intros H1. eexists. split; [|split; [|split]].
    + eapply make_gaussian_sources_finish; [done|].
      eapply add_sources_sum; [done| |done]. by apply point_sampled.
    + by rewrite fold_sum_shape.
    + apply fold_sum_well_shaped; [|apply np_zeros_well_shaped].
      apply Forall_fmap, Forall_forall. intros m _. split; [done|].
      apply Gaussian2D_call_well_shaped.
    + intros i j Hi Hj. apply fold_sum_pixel; [done..|]. by apply pixel_np_zeros.
  - intros H1 ds Hds. eexists. split; [|split; [|split]]; [| | |done].
    + eapply make_gaussian_sources_finish; [done|].
      eapply add_sources_sum; [done| |done].
      eapply Forall2_impl; [exact Hds|]. intros m d (Hd & Hs & _).
      unfold source_image. by rewrite H1.
    + by rewrite fold_sum_shape.
    + apply fold_sum_well_shaped; [|apply np_zeros_well_shaped].
      clear -Hds. induction Hds as [|m d ? ? (_ & Hs & Hw)]; constructor; done.
Qed.

(** *** make_gaussian_sources: the WCS header *)

Lemma make_gaussian_sources_wcs_not_hdu image_shape t oversample unit wcsheader :
  is_Ok (make_gaussian_sources image_shape t oversample unit false false wcsheader)
    = true →
  make_gaussian_sources image_shape t oversample unit false true wcsheader
  = Raise (ValueError wcs_not_hdu_message).
Proof.
  unfold make_gaussian_sources.
  destruct (source_amplitudes t) as [a|e]; [simpl|done].
  destruct (add_sources _ _ _ _ _ _ _ _) as [image|e]; [simpl|done].
  by destruct unit.
Qed.

Lemma point_sampled_returns image_shape t oversample unit wcsheader :
  Table_wf t = true → has_required_columns t = true →
  PrimFloat.eqb oversample 1 = true →
  is_Ok (make_gaussian_sources image_shape t oversample unit false false wcsheader)
  = true.
Proof.
  intros Hwf Hreq H1.
  destruct (source_amplitudes_length _ Hwf Hreq) as (a & Ha & Hlen).
  destruct (source_models_valid t a (seq 0 (Table_len t)))
    as [models Hmodels]; [done..| |].
  { apply Forall_forall. intros i Hi%elem_of_seq. lia. }
  edestruct (make_gaussian_sources_finish image_shape t oversample a) as (v & -> & _);
    [done| |done..].
  eapply add_sources_sum; [done| |done]. by apply point_sampled.
Qed.

(** C10: with [wcs=True] and [hdu=False] [make_gaussian_sources] returns
    nothing, whatever the table.  Where the image of the sources can be
    made, and so for every table with the required columns when
    [oversample] is 1, what it raises is the [ValueError] that asks for
    [hdu=True].  Whatever the arguments, a returned HDU comes from a call
    with [hdu=True], and a header in it from one with [wcs=True] as well. *)
Theorem make_gaussian_sources_wcs_needs_hdu image_shape source_table oversample unit
    wcsheader :
  is_Ok (make_gaussian_sources image_shape source_table oversample unit false true
           wcsheader) = false ∧
  (is_Ok (make_gaussian_sources image_shape source_table oversample unit false false
            wcsheader) = true ∨
   (Table_wf source_table = true ∧ has_required_columns source_table = true ∧
    PrimFloat.eqb oversample 1 = true) →
   make_gaussian_sources image_shape source_table oversample unit false true wcsheader
   = Raise (ValueError wcs_not_hdu_message)) ∧
  (∀ hdu wcs data header,
     make_gaussian_sources image_shape source_table oversample unit hdu wcs wcsheader
     = Ok (ImageHDU data header) →
     hdu = true ∧ header = hdu_header image_shape wcs wcsheader ∧
     (is_Some header → wcs = true)).
Proof.
  split; [|split].
  - unfold make_gaussian_sources.
    destruct (source_amplitudes source_table) as [a|e]; [simpl|done].
    destruct (add_sources _ _ _ _ _ _ _ _) as [image|e]; [simpl|done].
    by destruct unit.
  - intros [Hok|(Hwf & Hreq & H1)]; apply make_gaussian_sources_wcs_not_hdu;
      [done|by apply point_sampled_returns].
  - intros hdu wcs data header. unfold make_gaussian_sources.
    destruct (source_amplitudes source_table) as [a|e]; [simpl|done].
    destruct (add_sources _ _ _ _ _ _ _ _) as [image|e]; [simpl|done].
    destruct unit as [u|], hdu, wcs, wcsheader as [d|]; simpl;
      intros [= <- <-] || intros [=]; (split; [done|]); (split; [done|]);
      by intros [? [=]].
Qed.

(** *** make_gaussian_sources: flux before amplitude *)

Lemma add_sources_ext image_shape oversample x y t1 t2 a rows image :
  (∀ i, source_model t1 a i = source_model t2 a i) →
  add_sources image_shape oversample x y t1 a rows image
  = add_sources image_shape oversample x y t2 a rows image.
Proof.
  intros Hm. revert image. induction rows as [|i rows IH]; intros image; [done|].
  simpl. rewrite Hm. destruct (source_model t2 a i) as [m|e]; [simpl|done].
  destruct (source_image _ _ _ _ _) as [d|e]; [simpl|done].
  destruct (nd_binop _ _ _) as [image'|e]; [simpl|done]. apply IH.
Qed.

Lemma same_columns t1 t2 name :
  drop_column "amplitude" t1 = drop_column "amplitude" t2 →
  name ≠ "amplitude" →
  Table_getitem t1 name = Table_getitem t2 name ∧
  has_column t1 name = has_column t2 name.
Proof.
  intros Hd Hne. split.
  - by rewrite <- (Table_getitem_drop t1 name "amplitude"),
      <- (Table_getitem_drop t2 name "amplitude"), Hd.
  - by rewrite <- (has_column_drop t1 name "amplitude"),
      <- (has_column_drop t2 name "amplitude"), Hd.
Qed.

Lemma flux_amplitude t k a x :
  has_column t "flux" = true → source_amplitudes t = Ok a →
  Column_getitem a k = Ok x →
  ∃ flux sx sy,
    Row_getitem t k "flux" = Ok flux ∧ Row_getitem t k "x_stddev" = Ok sx ∧
    Row_getitem t k "y_stddev" = Ok sy ∧
    x = (flux / (2 * np_pi * sx * sy))%float.
Proof.
  intros Hf. unfold source_amplitudes, Row_getitem, Column_getitem. rewrite Hf.
  destruct (Table_getitem t "flux") as [f|]; [simpl|done].
  destruct (Table_getitem t "x_stddev") as [xs|]; [simpl|done].
  destruct (Table_getitem t "y_stddev") as [ys|]; [simpl|done].
  intros [= <-]. rewrite !lookup_zip_with, list_lookup_fmap.
  destruct (f !! k) as [fk|]; [simpl|done].
  destruct (xs !! k) as [xk|]; [simpl|done].
  destruct (ys !! k) as [yk|]; [simpl|done].
  intros [= <-]. by exists fk, xk, yk.
Qed.

(** C8: in a table with a ['flux'] column the amplitude of every source is
    its flux divided by [2 * pi * x_stddev * y_stddev], and the
    ['amplitude'] column is not looked at: two tables that are the same
    but for an ['amplitude'] column give the same outcome. *)
Theorem make_gaussian_sources_flux_first image_shape t1 t2 oversample unit hdu wcs
    wcsheader :
  Table_wf t1 = true → Table_wf t2 = true →
  has_column t1 "flux" = true →
  drop_column "amplitude" t1 = drop_column "amplitude" t2 →
  make_gaussian_sources image_shape t1 oversample unit hdu wcs wcsheader
  = make_gaussian_sources image_shape t2 oversample unit hdu wcs wcsheader ∧
  ∀ a k m, source_amplitudes t1 = Ok a → source_model t1 a k = Ok m →
    ∃ flux sx sy,
      Row_getitem t1 k "flux" = Ok flux ∧ Row_getitem t1 k "x_stddev" = Ok sx ∧
      Row_getitem t1 k "y_stddev" = Ok sy ∧
      amplitude m = (flux / (2 * np_pi * sx * sy))%float.
Proof.
  intros Hwf1 Hwf2 Hf1 Hd.
  assert (∀ name, name ≠ "amplitude" →
            Table_getitem t1 name = Table_getitem t2 name) as Hget.
  { intros name Hne. by apply same_columns. }
  assert (has_column t2 "flux" = true) as Hf2.
  { by rewrite <- (proj2 (same_columns t1 t2 "flux" Hd ltac:(done))). }
  assert (source_amplitudes t1 = source_amplitudes t2) as Ha.
  { unfold source_amplitudes. rewrite Hf1, Hf2, !Hget; done. }
  assert (Table_len t1 = Table_len t2) as Hlen.
  { destruct (Table_getitem_has _ _ Hf1) as (c1 & Hc1 & Hin1).
    destruct (Table_getitem_has _ _ Hf2) as (c2 & Hc2 & Hin2).
    rewrite Hget, Hc2 in Hc1 by done. injection Hc1 as <-.
    by rewrite <- (Table_wf_length _ _ _ Hwf1 Hin1), <- (Table_wf_length _ _ _ Hwf2 Hin2). }
  split.
  - unfold make_gaussian_sources. rewrite Ha, Hlen.
    destruct (source_amplitudes t2) as [a|e]; [simpl|done].
    rewrite (add_sources_ext _ _ _ _ t1 t2); [done|].
    intros i. unfold source_model, Row_getitem. rewrite !Hget; done.
  - intros a k m Hsa. unfold source_model.
    destruct (Column_getitem a k) as [x|] eqn:Hx; [simpl|done].
    destruct (flux_amplitude t1 k a x Hf1 Hsa Hx) as (flux & sx & sy & H1 & H2 & H3 & ->).
    intros Hm. exists flux, sx, sy. repeat (split; [done|]).
    destruct (Row_getitem t1 k "x_mean") as [?|]; simpl in Hm; [|done].
    destruct (Row_getitem t1 k "y_mean") as [?|]; simpl in Hm; [|done].
    destruct (Row_getitem t1 k "x_stddev") as [?|]; simpl in Hm; [|done].
    destruct (Row_getitem t1 k "y_stddev") as [?|]; simpl in Hm; [|done].
    destruct (Row_getitem t1 k "theta") as [?|]; simpl in Hm; [|done].
    by injection Hm as <-.
Qed.

(** *** Computations on one generator *)

Lemma store_generator_same prng g w :
  generator_of prng w = Some g → store_generator prng g w = w.
Proof.
  destruct prng as [|l], w as [gl objs]; simpl.
  - by intros [= ->].
  - intros H. by rewrite insert_id.
Qed.

Lemma generator_of_store prng g w :
  generator_of prng (store_generator prng g w) = Some g.
Proof. destruct prng as [|l]; simpl; [done|]. apply lookup_insert_eq. Qed.

Lemma store_generator_twice prng g g' w :
  store_generator prng g' (store_generator prng g w) = store_generator prng g' w.
Proof. destruct prng as [|l]; simpl; [done|]. by rewrite insert_insert_eq. Qed.

Lemma runs_on_ret {A} prng (a : A) : runs_on prng (mret a) (λ g, (Ok a, g)).
Proof. intros w g Hg. simpl. by rewrite store_generator_same. Qed.

Lemma runs_on_raise {A} prng e : runs_on prng (raise (A:=A) e) (λ g, (Raise e, g)).
Proof. intros w g Hg. simpl. by rewrite store_generator_same. Qed.

Lemma runs_on_lift {A} prng (r : result A) : runs_on prng (lift r) (λ g, (r, g)).
Proof. intros w g Hg. simpl. by rewrite store_generator_same. Qed.

Lemma runs_on_sample {A} prng (f : Generator → A * Generator) :
  runs_on prng (sample prng f) (λ g, (Ok (f g).1, (f g).2)).
Proof. intros w g Hg. unfold sample. rewrite Hg. by destruct (f g). Qed.

Lemma runs_on_bind {A B} prng (m : Comp A) (k : A → Comp B) pm pk :
  runs_on prng m pm → (∀ a, runs_on prng (k a) (pk a)) →
  runs_on prng (m ≫= k)
    (λ g, match pm g with
          | (Ok a, g') => pk a g'
          | (Raise e, g') => (Raise e, g')
          end).
Proof.
  intros Hm Hk w g Hg. unfold mbind, Comp_bind. rewrite (Hm w g Hg).
  destruct (pm g) as [[a|e] g']; simpl; [|done].
  rewrite (Hk a _ g' (generator_of_store _ _ _)).
  by rewrite store_generator_twice.
Qed.

Lemma runs_on_fmap {A B} prng (f : A → B) (m : Comp A) pm :
  runs_on prng m pm →
  runs_on prng (f <$> m)
    (λ g, match pm g with
          | (Ok a, g') => (Ok (f a), g')
          | (Raise e, g') => (Raise e, g')
          end).
Proof.
  intros Hm w g Hg. unfold fmap, Comp_fmap. rewrite (Hm w g Hg).
  by destruct (pm g) as [[a|e] g'].
Qed.

Lemma runs_on_or_raise {A} prng invalid (m : Comp A) pm :
  runs_on prng m pm →
  runs_on prng (or_raise invalid m)
    (λ g, match invalid with Some e => (Raise e, g) | None => pm g end).
Proof. intros Hm. destruct invalid; [apply runs_on_raise|done]. Qed.

Ltac runs_on :=
  repeat first
    [ eapply runs_on_bind; [|intros ?]
    | eapply runs_on_fmap
    | eapply runs_on_or_raise
    | eapply runs_on_sample
    | eapply runs_on_ret
    | eapply runs_on_raise
    | eapply runs_on_lift ].

(** With an integer seed the outcome is the one of the computation on the
    generator that the seed gives, in whatever store the call is made. *)
Lemma seeded_outcome {A} (body : prng_ref → Comp A) pure seed w :
  (∀ prng, runs_on prng (body prng) pure) →
  ((check_random_state (RS_Seed seed) ≫= body) w).1
  = if ((0 <=? seed) && (seed <? 2 ^ 32))%Z then (pure (seeded seed)).1
    else Raise (ValueError "Seed must be between 0 and 2**32 - 1").
Proof.
  intros Hbody. unfold mbind, Comp_bind. simpl. unfold RandomState_new.
  destruct (_ && _); [|done].
  erewrite Hbody; [done|]. simpl. apply lookup_insert_eq.
Qed.

Lemma make_noise_image_runs image_shape type mean stddev unit :
  ∃ pure, ∀ prng,
    runs_on prng
      (image ←
         (if String.eqb type "gaussian" then
            match stddev with
            | None =>
                raise (ValueError
                  (dq +:+ "stddev" +:+ dq +:+ " must be input for Gaussian noise"))
            | Some stddev =>
                Ndarray <$> RandomState_normal prng mean stddev image_shape
            end
          else if String.eqb type "poisson" then
            NdarrayInt <$> RandomState_poisson prng mean image_shape
          else
            msg ← lift (str_format invalid_type_template [type]);
            raise (ValueError msg));
       match unit with
       | Some unit => lift (Quantity_new image unit)
       | None => mret image
       end) pure.
Proof.
  destruct (String.eqb type "gaussian"); [destruct stddev|
    destruct (String.eqb type "poisson")];
    destruct unit; eexists; intros prng;
    unfold RandomState_normal, RandomState_poisson; runs_on.
Qed.

Lemma make_poisson_noise_runs image :
  ∃ pure, ∀ prng,
    runs_on prng
      (match image with
       | Quantity a unit =>
           counts ← RandomState_poisson_image prng a;
           mret (Quantity (nd_map float_of_Z counts) unit)
       | Ndarray a => NdarrayInt <$> RandomState_poisson_image prng a
       | NdarrayInt a =>
           NdarrayInt <$> RandomState_poisson_image prng (nd_map float_of_Z a)
       | ImageHDU _ _ => raise (TypeError "an ImageHDU is not an array")
       end) pure.
Proof.
  destruct image; eexists; intros prng; unfold RandomState_poisson_image; runs_on.
Qed.

Lemma make_random_gaussians_runs n_sources flux_range xmean_range ymean_range
    xstddev_range ystddev_range amplitude_range :
  ∃ pure, ∀ prng,
    runs_on prng
      (let sources : Table := [] in
       sources ←
         match amplitude_range with
         | None =>
             c ← RandomState_uniform prng flux_range.1 flux_range.2 n_sources;
             lift (Table_setitem sources "flux" c)
         | Some amplitude_range =>
             c ← RandomState_uniform prng amplitude_range.1 amplitude_range.2
                   n_sources;
             lift (Table_setitem sources "amplitude" c)
         end;
       c ← RandomState_uniform prng xmean_range.1 xmean_range.2 n_sources;
       sources ← lift (Table_setitem sources "x_mean" c);
       c ← RandomState_uniform prng ymean_range.1 ymean_range.2 n_sources;
       sources ← lift (Table_setitem sources "y_mean" c);
       c ← RandomState_uniform prng xstddev_range.1 xstddev_range.2 n_sources;
       sources ← lift (Table_setitem sources "x_stddev" c);
       c ← RandomState_uniform prng ystddev_range.1 ystddev_range.2 n_sources;
       sources ← lift (Table_setitem sources "y_stddev" c);
       c ← RandomState_uniform prng 0 (2 * np_pi) n_sources;
       sources ← lift (Table_setitem sources "theta" c);
       mret sources) pure.
Proof.
  destruct amplitude_range; eexists; intros prng; unfold RandomState_uniform;
    cbv zeta; runs_on.
Qed.

(** C2: with the other parameters fixed and an integer seed as
    [random_state], the outcome of [make_noise_image], of
    [make_poisson_noise] and of [make_random_gaussians] is the same in any
    two calls, whatever the stores of generators they are made in: the
    store the first call left, or any other. *)
Theorem seeded_calls_are_deterministic (seed : Z) (w1 w2 : World)
    image_shape type mean stddev unit image
    n_sources flux_range xmean_range ymean_range xstddev_range ystddev_range
    amplitude_range :
  (make_noise_image image_shape type mean stddev unit (RS_Seed seed) w1).1
  = (make_noise_image image_shape type mean stddev unit (RS_Seed seed) w2).1 ∧
  (make_poisson_noise image (RS_Seed seed) w1).1
  = (make_poisson_noise image (RS_Seed seed) w2).1 ∧
  (make_random_gaussians n_sources flux_range xmean_range ymean_range xstddev_range
     ystddev_range amplitude_range (RS_Seed seed) w1).1
  = (make_random_gaussians n_sources flux_range xmean_range ymean_range xstddev_range
       ystddev_range amplitude_range (RS_Seed seed) w2).1.
Proof.
  split; [|split].
  - destruct mean as [mean|]; [|done].
    destruct (make_noise_image_runs image_shape type mean stddev unit)
      as [pure Hpure].
    unfold make_noise_image.
    by rewrite !(seeded_outcome _ pure seed _ Hpure).
  - destruct (make_poisson_noise_runs image) as [pure Hpure].
    unfold make_poisson_noise.
    by rewrite !(seeded_outcome _ pure seed _ Hpure).
  - destruct (make_random_gaussians_runs n_sources flux_range xmean_range
                ymean_range xstddev_range ystddev_range amplitude_range)
      as [pure Hpure].
    unfold make_random_gaussians.
    by rewrite !(seeded_outcome _ pure seed _ Hpure).
Qed.

(** *** make_random_gaussians *)

Lemma draw_each_length {P A} (one : P → Generator → A * Generator) params g :
  length (draw_each one params g).1 = length params.
Proof.
  revert g. induction params as [|p ps IH]; intros g; [done|]. simpl.
  destruct (one p g) as [x g1]. specialize (IH g1).
  destruct (draw_each one ps g1) as [xs g2]. simpl in *. by rewrite IH.
Qed.

Lemma draws_length {A} (one : Generator → A * Generator) n g :
  length (draws one n g).1 = n.
Proof. unfold draws. by rewrite draw_each_length, length_replicate. Qed.

Lemma initial_generator_checked random_state w g :
  initial_generator random_state w = Some g →
  ∃ prng w', check_random_state random_state w = (Ok prng, w') ∧
             generator_of prng w' = Some g.
Proof.
  destruct random_state as [|seed|obj]; simpl.
  - intros [= <-]. by exists GlobalRand, w.
  - unfold RandomState_new. destruct (_ && _); [|done]. intros [= <-].
    eexists _, _. split; [done|]. simpl. apply lookup_insert_eq.
  - intros H. by exists (Obj obj), w.
Qed.

Lemma RandomState_uniform_valid prng low high n w g c g' :
  generator_of prng w = Some g → uniform_invalid low high = None →
  draws (uniform1 low high) n g = (c, g') →
  RandomState_uniform prng low high n w = (Ok c, store_generator prng g' w).
Proof.
  intros Hg Hv Hd. unfold RandomState_uniform, or_raise, sample.
  by rewrite Hv, Hg, Hd.
Qed.

Lemma Table_setitem_new (t : Table) name c :
  t ≠ [] → length c = Table_len t → name ∉ colnames t →
  Table_setitem t name c = Ok (t ++ [(name, c)]).
Proof.
  intros Ht Hlen Hname. unfold Table_setitem.
  destruct t as [|nc t]; [done|].
  rewrite Hlen, Nat.eqb_refl.
  destruct (has_column (nc :: t) name) eqn:E; [|done].
  by apply has_column_elem in E.
Qed.

Lemma random_table_wf (name : string) (c1 c2 c3 c4 c5 c6 : Column) n :
  name ∉ shape_columns →
  length c1 = n → length c2 = n → length c3 = n → length c4 = n →
  length c5 = n → length c6 = n →
  Table_wf [(name, c1); ("x_mean", c2); ("y_mean", c3); ("x_stddev", c4);
            ("y_stddev", c5); ("theta", c6)] = true.
Proof.
  intros Hname H1 H2 H3 H4 H5 H6. unfold Table_wf. apply andb_true_iff. split.
  - apply bool_decide_eq_true. simpl. apply NoDup_cons. split; [done|].
    by apply (bool_decide_unpack _).
  - simpl. rewrite H1, H2, H3, H4, H5, H6, !Nat.eqb_refl. done.
Qed.

Ltac draw_column :=
  match goal with
  | |- context [RandomState_uniform ?p ?low ?high ?n ?w] =>
      let c := fresh "c" in
      let g' := fresh "g" in
      let E := fresh "E" in
      let Hlen := fresh "Hlen" in
      match goal with
      | Hg : generator_of p w = Some ?g |- _ =>
          destruct (draws (uniform1 low high) n g) as [c g'] eqn:E;
          rewrite (RandomState_uniform_valid p low high n w g c g' Hg) by done;
          pose proof (generator_of_store p g' w);
          pose proof (draws_length (uniform1 low high) n g) as Hlen;
          rewrite E in Hlen; simpl in Hlen
      end
  end.

(** C6: with a usable [random_state] and bounds that numpy accepts,
    [make_random_gaussians] returns a table of exactly [n_sources] rows
    whose columns are, in this order, ['flux'] (if [amplitude_range] is
    [None]) or ['amplitude'] (if it is given, whatever [flux_range] is),
    ['x_mean'], ['y_mean'], ['x_stddev'], ['y_stddev'] and ['theta'].  The
    columns are successive draws of [n_sources] uniform samples each, with
    the bounds of the column, for ['theta'] 0 and [2 * pi]. *)
Theorem make_random_gaussians_table n_sources flux_range xmean_range ymean_range
    xstddev_range ystddev_range amplitude_range random_state w g0 :
  initial_generator random_state w = Some g0 →
  Forall (λ r, uniform_invalid r.1 r.2 = None)
    (random_column_ranges flux_range xmean_range ymean_range xstddev_range
       ystddev_range amplitude_range) →
  ∃ table,
    (make_random_gaussians n_sources flux_range xmean_range ymean_range
       xstddev_range ystddev_range amplitude_range random_state w).1 = Ok table ∧
    colnames table = random_column_names flux_range amplitude_range ∧
    Table_len table = n_sources ∧
    Table_wf table = true ∧
    Forall (λ nc, length nc.2 = n_sources) table ∧
    table = zip (random_column_names flux_range amplitude_range)
              (uniform_columns n_sources
                 (random_column_ranges flux_range xmean_range ymean_range
                    xstddev_range ystddev_range amplitude_range) g0).1 ∧
    (∀ other, is_Some amplitude_range →
       make_random_gaussians n_sources other xmean_range ymean_range
         xstddev_range ystddev_range amplitude_range random_state w
       = make_random_gaussians n_sources flux_range xmean_range ymean_range
           xstddev_range ystddev_range amplitude_range random_state w).
Proof.
  intros Hinit Hvalid.
  destruct (initial_generator_checked _ _ _ Hinit) as (prng & w0 & Hcheck & Hg0).
  unfold random_column_ranges in Hvalid.
  repeat (apply Forall_cons in Hvalid as [? Hvalid]). simpl in *.
  unfold make_random_gaussians, mbind, Comp_bind. rewrite Hcheck.
  unfold uniform_columns, random_column_names, random_column_ranges.
  destruct amplitude_range as [amplitude_range|]; simpl in *.
  all: do 6 (draw_column; unfold lift; try rewrite Table_setitem_new by
               (first [done | simpl; congruence | by apply (bool_decide_unpack _)])).
  all: eexists; (split; [reflexivity|]); simpl.
  all: split; [done|]; split; [done|].
  all: split;
    [apply (random_table_wf _ _ _ _ _ _ _ n_sources);
       [apply (bool_decide_unpack _); vm_compute; exact I|done..]|].
  all: split; [by repeat constructor|].
  all: split; done.
Qed.

(** *** The example images *)

Lemma four_gaussians_table_rows : four_gaussians_table = Ok four_rows.
Proof. vm_compute. reflexivity. Qed.

Lemma make_gaussian_sources_hdu image_shape t oversample wcs wcsheader :
  header_can_be_made true wcs wcsheader = true →
  make_gaussian_sources image_shape t oversample None true wcs wcsheader
  = (λ v, ImageHDU v (hdu_header image_shape wcs wcsheader))
      <$> make_gaussian_sources image_shape t oversample None false false None.
Proof.
  intros Hh. unfold make_gaussian_sources.
  destruct (source_amplitudes t) as [a|e]; [simpl|done].
  destruct (add_sources _ _ _ _ _ _ _ _) as [image|e]; [simpl|done].
  by destruct wcs, wcsheader.
Qed.

(** C7: the two example images are compositions of the other functions
    with fixed parameters.  [make_4gaussians_image] builds the table of the
    four rows and is [make_gaussian_sources] over (100, 200) on it plus
    [make_noise_image] with mean 5, deviation 5 and seed 12345; as an HDU,
    with the header that [make_gaussian_sources] makes itself or with none,
    it is the same image in an HDU.  [make_100gaussians_image] is
    [make_gaussian_sources] over (300, 500) on the table of
    [make_random_gaussians] plus [make_noise_image] with mean 5, deviation 2
    and seed 12345. *)
Theorem example_images_are_compositions (w : World) wcs wcsheader :
  four_gaussians_table = Ok four_rows ∧
  make_4gaussians_image false false None w = composed_4gaussians w ∧
  make_4gaussians_image true wcs None w
  = ((λ v, ImageHDU v (hdu_header (100, 200) wcs None)) <$> composed_4gaussians) w ∧
  make_4gaussians_image true false wcsheader w
  = ((λ v, ImageHDU v None) <$> composed_4gaussians) w ∧
  make_100gaussians_image w = composed_100gaussians w.
Proof.
  assert (∀ wcs' wcsheader',
            header_can_be_made true wcs' wcsheader' = true →
            make_4gaussians_image true wcs' wcsheader' w
            = ((λ v, ImageHDU v (hdu_header (100, 200) wcs' wcsheader'))
                 <$> composed_4gaussians) w) as Hhdu.
  { intros wcs' wcsheader' Hh.
    unfold make_4gaussians_image, composed_4gaussians, plus, fmap, Comp_fmap,
      mbind, Comp_bind, lift.
    rewrite four_gaussians_table_rows, make_gaussian_sources_hdu by done.
    generalize (make_gaussian_sources (100, 200) four_rows 1 None false false None).
    intros [v|e]; [|done]. unfold fmap, result_fmap.
    destruct (make_noise_image _ _ _ _ _ _ w) as [[noise|e] w']; [|done].
    by destruct (value_add v noise). }
  split; [apply four_gaussians_table_rows|]. split; [|split; [|split]].
  - unfold make_4gaussians_image, composed_4gaussians, plus, mbind, Comp_bind, lift.
    rewrite four_gaussians_table_rows.
    generalize (make_gaussian_sources (100, 200) four_rows 1 None false false None).
    by intros [v|e].
  - apply Hhdu. by destruct wcs.
  - apply (Hhdu false wcsheader). done.
  - unfold make_100gaussians_image, composed_100gaussians, plus, mbind, Comp_bind,
      lift.
    destruct (make_random_gaussians _ _ _ _ _ _ _ _ w) as [[table|e] w1]; [|done].
    generalize (make_gaussian_sources (300, 500) table 1 None false false None).
    by intros [v|e].
Qed.

(** *** The shape of noise images *)

Lemma draw_each_Forall {P A} (one : P → Generator → A * Generator) (Q : A → Prop)
    params g :
  (∀ p g', Q (one p g').1) → Forall Q (draw_each one params g).1.
Proof.
  intros HQ. revert g. induction params as [|p ps IH]; intros g; [constructor|].
  simpl. pose proof (HQ p g) as Hp. destruct (one p g) as [x g1].
  specialize (IH g1). destruct (draw_each one ps g1) as [xs g2]. by constructor.
Qed.

Lemma draws_well_shaped {A} (one : Generator → A * Generator) (size : nat * nat) g :
  nd_well_shaped (NdArray size (draws (draws one size.2) size.1 g).1).
Proof.
  split; simpl; [apply draws_length|].
  apply draw_each_Forall. intros _ g'. apply draws_length.
Qed.

Lemma nd_map_well_shaped {A B} (f : A → B) a :
  nd_well_shaped a → nd_well_shaped (nd_map f a).
Proof.
  intros [Hl Hr]. split; simpl; [by rewrite length_map|].
  apply Forall_fmap. eapply Forall_impl; [exact Hr|].
  intros row Hrow. simpl. by rewrite length_map.
Qed.

Lemma RandomState_normal_shape prng loc scale size w a :
  (RandomState_normal prng loc scale size w).1 = Ok a →
  nd_shape a = size ∧ nd_well_shaped a.
Proof.
  unfold RandomState_normal, or_raise. destruct (normal_invalid loc scale); [done|].
  unfold mbind, Comp_bind, sample. destruct (generator_of prng w) as [g|]; [|done].
  pose proof (draws_well_shaped (normal1 loc scale) size g) as Hw.
  destruct (draws _ _ g) as [rows g']. simpl in *. by intros [= <-].
Qed.

Lemma RandomState_poisson_shape prng lam size w a :
  (RandomState_poisson prng lam size w).1 = Ok a →
  nd_shape a = size ∧ nd_well_shaped a.
Proof.
  unfold RandomState_poisson, or_raise. destruct (poisson_invalid lam); [done|].
  unfold mbind, Comp_bind, sample. destruct (generator_of prng w) as [g|]; [|done].
  pose proof (draws_well_shaped (poisson1 lam) size g) as Hw.
  destruct (draws _ _ g) as [rows g']. simpl in *. by intros [= <-].
Qed.

(** X1: whatever [make_noise_image] returns has exactly the shape asked for, one
    sample per pixel: floats for Gaussian noise, counts for Poisson noise,
    and a quantity with the given unit when there is one. *)
Theorem make_noise_image_shape image_shape type mean stddev unit random_state w v :
  (make_noise_image image_shape type mean stddev unit random_state w).1 = Ok v →
  value_shape v = image_shape ∧ value_well_shaped v ∧
  match unit with
  | Some u => ∃ a, v = Quantity a u
  | None => (type = "gaussian" ∧ ∃ a, v = Ndarray a) ∨
            (type = "poisson" ∧ ∃ a, v = NdarrayInt a)
  end.
Proof.
  unfold make_noise_image. destruct mean as [mean|]; [|done].
  unfold mbind, Comp_bind.
  destruct (check_random_state random_state w) as [[prng|e] w0]; [|done].
  destruct (String.eqb type "gaussian") eqn:Eg.
  - apply String.eqb_eq in Eg as ->. destruct stddev as [stddev|]; [|done].
    unfold fmap, Comp_fmap.
    pose proof (RandomState_normal_shape prng mean stddev image_shape w0) as Hs.
    destruct (RandomState_normal _ _ _ _ w0) as [[a|e] w1]; [|done].
    destruct (Hs a eq_refl) as [Hshape Hwell].
    destruct unit as [u|]; simpl; intros [= <-]; simpl; eauto 6.
  - destruct (String.eqb type "poisson") eqn:Ep.
    + apply String.eqb_eq in Ep as ->. unfold fmap, Comp_fmap.
      pose proof (RandomState_poisson_shape prng mean image_shape w0) as Hs.
      destruct (RandomState_poisson _ _ _ w0) as [[a|e] w1]; [|done].
      destruct (Hs a eq_refl) as [Hshape Hwell].
      destruct unit as [u|]; simpl; intros [= <-]; simpl;
        (split; [done|]); (split; [by try apply nd_map_well_shaped|]); eauto 6.
    + unfold lift. by rewrite invalid_type_template_format.
Qed.

(** *** The shape of Poisson noise *)

Lemma draw_each_rows_length {P A} (one : P → Generator → A * Generator)
    (rows : list (list P)) g :
  length <$> (draw_each (draw_each one) rows g).1 = length <$> rows.
Proof.
  revert g. induction rows as [|row rows IH]; intros g; [done|]. simpl.
  pose proof (draw_each_length one row g) as Hrow.
  destruct (draw_each one row g) as [xs g1]. specialize (IH g1).
  destruct (draw_each (draw_each one) rows g1) as [xss g2].
  simpl in *. by f_equal.
Qed.

Lemma nd_map_rows_length {A B} (f : A → B) a :
  length <$> nd_data (nd_map f a) = length <$> nd_data a.
Proof.
  unfold nd_map. cbn [nd_data]. rewrite <- list_fmap_compose.
  apply list_fmap_ext. intros i row _. simpl. by rewrite length_map.
Qed.

Lemma RandomState_poisson_image_shape prng lam w c :
  (RandomState_poisson_image prng lam w).1 = Ok c →
  nd_shape c = nd_shape lam ∧ length <$> nd_data c = length <$> nd_data lam.
Proof.
  unfold RandomState_poisson_image, or_raise. destruct (first_invalid _); [done|].
  unfold mbind, Comp_bind, sample. destruct (generator_of prng w) as [g|]; [|done].
  pose proof (draw_each_rows_length poisson1 (nd_data lam) g) as Hr.
  destruct (draw_each _ _ g) as [rows g']. simpl in *. by intros [= <-].
Qed.

(** X2: [make_poisson_noise] returns one count per pixel of its image: an array
    of counts of the shape and the rows of an array, and for a quantity a
    quantity of its unit, shape and rows.  It never returns anything else. *)
Theorem make_poisson_noise_shape image random_state w v :
  (make_poisson_noise image random_state w).1 = Ok v →
  match image, v with
  | Ndarray a, NdarrayInt c =>
      nd_shape c = nd_shape a ∧ length <$> nd_data c = length <$> nd_data a
  | NdarrayInt a, NdarrayInt c =>
      nd_shape c = nd_shape a ∧ length <$> nd_data c = length <$> nd_data a
  | Quantity a u, Quantity c u' =>
      u' = u ∧ nd_shape c = nd_shape a ∧
      length <$> nd_data c = length <$> nd_data a
  | _, _ => False
  end.
Proof.
  unfold make_poisson_noise, mbind, Comp_bind.
  destruct (check_random_state random_state w) as [[prng|e] w0]; [|done].
  destruct image as [a|a|a u|data header]; [| | |done]; unfold fmap, Comp_fmap.
  - pose proof (RandomState_poisson_image_shape prng a w0) as Hs.
    destruct (RandomState_poisson_image prng a w0) as [[c|e] w1]; [|done].
    simpl. intros [= <-]. by apply Hs.
  - pose proof (RandomState_poisson_image_shape prng (nd_map float_of_Z a) w0) as Hs.
    destruct (RandomState_poisson_image prng _ w0) as [[c|e] w1]; [|done].
    simpl. intros [= <-]. destruct (Hs c eq_refl) as [H1 H2]. split; [done|].
    etrans; [exact H2|]. apply nd_map_rows_length.
  - pose proof (RandomState_poisson_image_shape prng a w0) as Hs.
    destruct (RandomState_poisson_image prng a w0) as [[c|e] w1]; [|done].
    simpl. intros [= <-]. destruct (Hs c eq_refl) as [H1 H2]. split; [done|].
    split; [done|]. etrans; [apply nd_map_rows_length|exact H2].
Qed.

(** *** The generators a call leaves alone *)

Lemma touches_only_ret {A} prng (a : A) : touches_only prng (mret a).
Proof. by intros w. Qed.

Lemma touches_only_raise {A} prng e : touches_only prng (raise (A:=A) e).
Proof. by intros w. Qed.

Lemma touches_only_lift {A} prng (r : result A) : touches_only prng (lift r).
Proof. by intros w. Qed.

Lemma touches_only_sample {A} prng (f : Generator → A * Generator) :
  touches_only prng (sample prng f).
Proof.
  intros w. unfold sample. destruct (generator_of prng w) as [g|]; [|done].
  destruct (f g) as [a g']. destruct prng as [|l0]; simpl; split; try done.
  intros l Hl. rewrite lookup_insert_ne; [done|congruence].
Qed.

Lemma touches_only_bind {A B} prng (m : Comp A) (k : A → Comp B) :
  touches_only prng m → (∀ a, touches_only prng (k a)) → touches_only prng (m ≫= k).
Proof.
  intros Hm Hk w. unfold mbind, Comp_bind. destruct (Hm w) as [Hg Ho].
  destruct (m w) as [[a|e] w1]; simpl in *; [|done].
  destruct (Hk a w1) as [Hg' Ho']. split.
  - intros Hp. by rewrite Hg', Hg.
  - intros l Hl. by rewrite Ho', Ho.
Qed.

Lemma touches_only_fmap {A B} prng (f : A → B) (m : Comp A) :
  touches_only prng m → touches_only prng (f <$> m).
Proof.
  intros Hm w. unfold fmap, Comp_fmap. destruct (Hm w) as [Hg Ho].
  by destruct (m w) as [[a|e] w1].
Qed.

Lemma touches_only_or_raise {A} prng invalid (m : Comp A) :
  touches_only prng m → touches_only prng (or_raise invalid m).
Proof. intros Hm. destruct invalid; [apply touches_only_raise|done]. Qed.

Ltac touches_only :=
  repeat first
    [ apply touches_only_ret
    | apply touches_only_raise
    | apply touches_only_lift
    | apply touches_only_sample
    | apply touches_only_or_raise
    | apply touches_only_fmap
    | apply touches_only_bind; [|intros ?]
    | match goal with
      | |- touches_only _ (match ?x with _ => _ end) => destruct x
      end ].

Lemma untouched_trans w1 w2 w3 : untouched w1 w2 → untouched w2 w3 → untouched w1 w3.
Proof.
  intros [Hg1 Ho1] [Hg2 Ho2]. split; [by rewrite Hg2|]. intros l g Hl. eauto.
Qed.

(** After [check_random_state], a computation that touches its generator
    only changes what the kind of [random_state] allows. *)
Lemma checked_changes_its_generator_only {A} (body : prng_ref → Comp A)
    random_state w :
  (∀ prng, touches_only prng (body prng)) →
  changes_its_generator_only random_state w
    ((check_random_state random_state ≫= body) w).2.
Proof.
  intros Hbody. unfold mbind, Comp_bind.
  destruct random_state as [|seed|obj]; simpl.
  - destruct (Hbody GlobalRand w) as [_ Ho]. apply map_eq. intros l. by apply Ho.
  - unfold RandomState_new. destruct (_ && _); [|by split].
    set (l0 := fresh (dom (objects w))).
    set (w0 := MkWorld (global_rand w) (<[l0:=seeded seed]> (objects w))).
    destruct (Hbody (Obj l0) w0) as [Hg Ho]. split; [by apply Hg|].
    intros l g Hl. assert (l ≠ l0) as Hne.
    { intros ->. apply (is_fresh (dom (objects w))), elem_of_dom. eauto. }
    rewrite Ho by congruence. simpl. by rewrite lookup_insert_ne.
  - destruct (Hbody (Obj obj) w) as [Hg Ho]. split; [by apply Hg|].
    intros l Hl. apply Ho. congruence.
Qed.

Lemma make_noise_image_changes image_shape type mean stddev unit random_state w :
  changes_its_generator_only random_state w
    (make_noise_image image_shape type mean stddev unit random_state w).2.
Proof.
  unfold make_noise_image. destruct mean as [mean|].
  - apply checked_changes_its_generator_only. intros prng.
    unfold RandomState_normal, RandomState_poisson. touches_only.
  - by destruct random_state.
Qed.

Lemma make_poisson_noise_changes image random_state w :
  changes_its_generator_only random_state w (make_poisson_noise image random_state w).2.
Proof.
  unfold make_poisson_noise. apply checked_changes_its_generator_only.
  intros prng. unfold RandomState_poisson_image. touches_only.
Qed.

Lemma make_random_gaussians_changes n_sources flux_range xmean_range ymean_range
    xstddev_range ystddev_range amplitude_range random_state w :
  changes_its_generator_only random_state w
    (make_random_gaussians n_sources flux_range xmean_range ymean_range
       xstddev_range ystddev_range amplitude_range random_state w).2.
Proof.
  unfold make_random_gaussians. apply checked_changes_its_generator_only.
  intros prng. unfold RandomState_uniform. cbv zeta. touches_only.
Qed.

(** X3: a call changes no generator but the one it samples from.  With an integer
    seed [make_noise_image], [make_poisson_noise] and [make_random_gaussians]
    leave numpy's global generator and every existing [RandomState] as they
    were; without a seed they change the global generator only, and with a
    [RandomState] that object only. *)
Theorem calls_change_their_generator_only random_state w
    image_shape type mean stddev unit image
    n_sources flux_range xmean_range ymean_range xstddev_range ystddev_range
    amplitude_range :
  changes_its_generator_only random_state w
    (make_noise_image image_shape type mean stddev unit random_state w).2 ∧
  changes_its_generator_only random_state w
    (make_poisson_noise image random_state w).2 ∧
  changes_its_generator_only random_state w
    (make_random_gaussians n_sources flux_range xmean_range ymean_range
       xstddev_range ystddev_range amplitude_range random_state w).2.
Proof.
  split; [apply make_noise_image_changes|].
  split; [apply make_poisson_noise_changes|apply make_random_gaussians_changes].
Qed.

(** *** The columns that make_gaussian_sources reads *)

Lemma Table_getitem_elem (t : Table) name c :
  Table_getitem t name = Ok c → (name, c) ∈ t.
Proof.
  induction t as [|[n c0] t IH]; simpl; [done|].
  destruct (String.eqb n name) eqn:E.
  - apply String.eqb_eq in E as ->. intros [= ->]. left.
  - intros Hc. right. by apply IH.
Qed.

Lemma Table_getitem_missing (t : Table) name :
  has_column t name = false → Table_getitem t name = Raise (KeyError name).
Proof.
  intros Hc. destruct (Table_getitem t name) as [c|e] eqn:E.
  - apply Table_getitem_elem in E.
    assert (has_column t name = true) as Hc'; [|congruence].
    apply has_column_elem, list_elem_of_fmap. by exists (name, c).
  - clear Hc. induction t as [|[n c0] t IH]; simpl in E; [done|].
    destruct (String.eqb n name); [done|by apply IH].
Qed.

Lemma Table_getitem_NoDup (t : Table) name c :
  NoDup (colnames t) → (name, c) ∈ t → Table_getitem t name = Ok c.
Proof.
  unfold colnames. induction t as [|[n c0] t IH]; simpl.
  - intros _ Hin. by apply elem_of_nil in Hin.
  - intros [Hn Hnd]%NoDup_cons [[= -> ->]|Hin]%elem_of_cons.
    + by rewrite String.eqb_refl.
    + destruct (String.eqb n name) eqn:E; [|by apply IH].
      apply String.eqb_eq in E as ->. destruct Hn.
      apply list_elem_of_fmap. by exists (name, c).
Qed.

Lemma has_column_getitem (t : Table) name :
  has_column t name = is_Ok (Table_getitem t name).
Proof.
  destruct (has_column t name) eqn:E.
  - by destruct (Table_getitem_has _ _ E) as (c & -> & _).
  - by rewrite Table_getitem_missing.
Qed.

Lemma Table_len_part (t t' : Table) :
  Table_wf t = true → (∀ nc, nc ∈ t' → nc ∈ t) → t' ≠ [] →
  Table_len t' = Table_len t.
Proof.
  intros Hwf Hsub Hne. destruct t' as [|[n c] t']; [done|]. simpl.
  apply (Table_wf_length t n c Hwf), Hsub. left.
Qed.

Lemma source_amplitudes_column (t : Table) a :
  source_amplitudes t = Ok a →
  ∃ name c, (name = "flux" ∨ name = "amplitude") ∧ (name, c) ∈ t.
Proof.
  unfold source_amplitudes. destruct (has_column t "flux") eqn:Hf.
  - intros _. destruct (Table_getitem_has _ _ Hf) as (c & _ & Hin). eauto.
  - destruct (has_column t "amplitude") eqn:Ha; [|done].
    intros _. destruct (Table_getitem_has _ _ Ha) as (c & _ & Hin). eauto.
Qed.

(** Two tables in which the columns that are read are the same give the same
    outcome. *)
Lemma make_gaussian_sources_reads image_shape (t1 t2 : Table) oversample unit hdu wcs
    wcsheader :
  (∀ name, name ∈ read_columns → Table_getitem t1 name = Table_getitem t2 name) →
  (∀ a, source_amplitudes t1 = Ok a → Table_len t1 = Table_len t2) →
  make_gaussian_sources image_shape t1 oversample unit hdu wcs wcsheader
  = make_gaussian_sources image_shape t2 oversample unit hdu wcs wcsheader.
Proof.
  intros Hget Hlen.
  assert (∀ name, name ∈ read_columns → has_column t1 name = has_column t2 name)
    as Hhas.
  { intros name Hn. by rewrite !has_column_getitem, Hget. }
  assert (source_amplitudes t1 = source_amplitudes t2) as Ha.
  { unfold source_amplitudes.
    rewrite (Hhas "flux"), (Hhas "amplitude"), (Hget "flux"), (Hget "x_stddev"),
      (Hget "y_stddev"), (Hget "amplitude"); [done|by apply (bool_decide_unpack _)..]. }
  unfold make_gaussian_sources. rewrite <- Ha.
  destruct (source_amplitudes t1) as [a|e] eqn:Ea; [simpl|done].
  rewrite (Hlen a eq_refl).
  rewrite (add_sources_ext _ _ _ _ t1 t2); [done|].
  intros i. unfold source_model, Row_getitem.
  rewrite (Hget "x_mean"), (Hget "y_mean"), (Hget "x_stddev"), (Hget "y_stddev"),
    (Hget "theta"); [done|by apply (bool_decide_unpack _)..].
Qed.

(** X4: [make_gaussian_sources] reads the columns ['flux'], ['amplitude'],
    ['x_mean'], ['y_mean'], ['x_stddev'], ['y_stddev'] and ['theta'] and no
    other: a table gives the same outcome with and without any other column. *)
Theorem make_gaussian_sources_ignores_other_columns image_shape (t : Table) other
    oversample unit hdu wcs wcsheader :
  Table_wf t = true → other ∉ read_columns →
  make_gaussian_sources image_shape (drop_column other t) oversample unit hdu wcs
    wcsheader
  = make_gaussian_sources image_shape t oversample unit hdu wcs wcsheader.
Proof.
  intros Hwf Hother. apply make_gaussian_sources_reads.
  - intros name Hname. apply Table_getitem_drop. by intros ->.
  - intros a (name & c & Hname & Hin)%source_amplitudes_column.
    apply (Table_len_part t); [done| |].
    + intros nc Hnc. unfold drop_column in Hnc.
      by apply list_elem_of_filter in Hnc as [_ ?].
    + intros Hnil. rewrite Hnil in Hin. by apply elem_of_nil in Hin.
Qed.

(** X5: the order of the columns of the table does not matter to
    [make_gaussian_sources]. *)
Theorem make_gaussian_sources_any_column_order image_shape (t1 t2 : Table) oversample
    unit hdu wcs wcsheader :
  Table_wf t1 = true → t1 ≡ₚ t2 →
  make_gaussian_sources image_shape t1 oversample unit hdu wcs wcsheader
  = make_gaussian_sources image_shape t2 oversample unit hdu wcs wcsheader.
Proof.
  intros Hwf Hperm. symmetry. apply make_gaussian_sources_reads.
  - intros name _.
    assert (NoDup (colnames t1)) as Hnd.
    { apply andb_true_iff in Hwf as [Hnd _]. by apply bool_decide_eq_true in Hnd. }
    destruct (has_column t1 name) eqn:E.
    + destruct (Table_getitem_has _ _ E) as (c & -> & Hin).
      apply Table_getitem_NoDup.
      * unfold colnames. by rewrite <- Hperm.
      * by rewrite <- Hperm.
    + rewrite (Table_getitem_missing t1) by done. apply Table_getitem_missing.
      apply not_true_iff_false. intros E2. apply not_true_iff_false in E. apply E.
      apply has_column_elem. apply has_column_elem in E2.
      unfold colnames in *. by rewrite Hperm.
  - intros a (name & c & Hname & Hin)%source_amplitudes_column.
    apply (Table_len_part t1); [done| |].
    + intros nc Hnc. by rewrite Hperm.
    + intros Hnil. rewrite Hnil in Hin. by apply elem_of_nil in Hin.
Qed.

(** X6: a column that is missing is reported by its name.  With a ['flux']
    column, ['x_stddev'] and ['y_stddev'] are asked for before any row is
    looked at.  Once the amplitudes are there and the table has a row, the
    first of ['x_mean'], ['y_mean'], ['x_stddev'], ['y_stddev'] and
    ['theta'] that is missing ends the call in a [KeyError] with its name as
    key. *)
Theorem make_gaussian_sources_missing_column image_shape (t : Table) oversample unit
    hdu wcs wcsheader :
  (has_column t "flux" = true → has_column t "x_stddev" = false →
   make_gaussian_sources image_shape t oversample unit hdu wcs wcsheader
   = Raise (KeyError "x_stddev")) ∧
  (has_column t "flux" = true → has_column t "x_stddev" = true →
   has_column t "y_stddev" = false →
   make_gaussian_sources image_shape t oversample unit hdu wcs wcsheader
   = Raise (KeyError "y_stddev")) ∧
  (∀ a missing present rest,
     Table_wf t = true → source_amplitudes t = Ok a → 0 < Table_len t →
     shape_columns = present ++ missing :: rest →
     Forall (λ name, has_column t name = true) present →
     has_column t missing = false →
     make_gaussian_sources image_shape t oversample unit hdu wcs wcsheader
     = Raise (KeyError missing)).
Proof.
  split; [|split].
  - intros Hf Hx. unfold make_gaussian_sources, source_amplitudes. rewrite Hf.
    destruct (Table_getitem_has _ _ Hf) as (f & -> & _).
    by rewrite (Table_getitem_missing _ _ Hx).
  - intros Hf Hx Hy. unfold make_gaussian_sources, source_amplitudes. rewrite Hf.
    destruct (Table_getitem_has _ _ Hf) as (f & -> & _).
    destruct (Table_getitem_has _ _ Hx) as (xs & -> & _).
    by rewrite (Table_getitem_missing _ _ Hy).
  - intros a missing present rest Hwf Ha Hlen Hcols Hpresent Hmissing.
    assert (length a = Table_len t) as Hla.
    { revert Ha. unfold source_amplitudes.
      destruct (has_column t "flux") eqn:Hf.
      - destruct (Table_getitem t "flux") as [f|] eqn:Ef; [simpl|done].
        destruct (Table_getitem t "x_stddev") as [xs|] eqn:Ex; [simpl|done].
        destruct (Table_getitem t "y_stddev") as [ys|] eqn:Ey; [simpl|done].
        intros [= <-]. rewrite !length_zip_with, length_fmap.
        rewrite (Table_wf_length _ _ _ Hwf (Table_getitem_elem _ _ _ Ef)),
          (Table_wf_length _ _ _ Hwf (Table_getitem_elem _ _ _ Ex)),
          (Table_wf_length _ _ _ Hwf (Table_getitem_elem _ _ _ Ey)). lia.
      - destruct (has_column t "amplitude"); [|done]. intros Ha.
        apply (Table_wf_length _ _ _ Hwf (Table_getitem_elem _ _ _ Ha)). }
    assert (source_model t a 0 = Raise (KeyError missing)) as Hmodel.
    { unfold source_model.
      destruct (Column_getitem_lt a 0) as [x ->]; [lia|]. simpl.
      assert (∀ name, has_column t name = true → ∃ x, Row_getitem t 0 name = Ok x)
        as Hrow by (intros name Hn; by apply Row_getitem_has).
      assert (Row_getitem t 0 missing = Raise (KeyError missing)) as Hm.
      { unfold Row_getitem. by rewrite (Table_getitem_missing _ _ Hmissing). }
      unfold shape_columns in Hcols.
      repeat (destruct present as [|? present];
              [simplify_eq/=; rewrite ?Hm; done|];
              apply Forall_cons in Hpresent as [? Hpresent];
              injection Hcols as <- Hcols;
              match goal with
              | Hp : has_column t ?name = true |- _ =>
                  destruct (Hrow name Hp) as [? ->]; clear Hp
              end; simpl).
      by destruct present. }
    unfold make_gaussian_sources. rewrite Ha. simpl.
    destruct (Table_len t) as [|n] eqn:En; [lia|].
    simpl. by rewrite Hmodel.
Qed.

(** X7: a table without rows gives the image of zeros, whatever [oversample] is
    and whichever of the columns of the rows are there, in every call in
    which the header asked for can be made: no model is made and
    [discretize_model] is not called. *)
Theorem make_gaussian_sources_no_rows image_shape (t : Table) oversample a :
  source_amplitudes t = Ok a → Table_len t = 0 →
  returns_image image_shape t oversample (np_zeros image_shape).
Proof.
  intros Ha Hlen. apply (make_gaussian_sources_finish _ _ _ a); [done|].
  by rewrite Hlen.
Qed.

(** *** From make_random_gaussians to make_gaussian_sources *)

Lemma point_sampled_image image_shape t oversample :
  Table_wf t = true → has_required_columns t = true →
  PrimFloat.eqb oversample 1 = true →
  ∃ image, returns_image image_shape t oversample image ∧
           nd_shape image = image_shape ∧ nd_well_shaped image.
Proof.
  intros Hwf Hreq H1.
  destruct (source_amplitudes_length _ Hwf Hreq) as (a & Ha & Hlen).
  destruct (source_models_valid t a (seq 0 (Table_len t)))
    as [models Hmodels]; [done..| |].
  { apply Forall_forall. intros i Hi%elem_of_seq. lia. }
  eexists. split; [|split].
  - eapply make_gaussian_sources_finish; [done|].
    eapply add_sources_sum; [done| |done]. by apply point_sampled.
  - by rewrite fold_sum_shape.
  - apply fold_sum_well_shaped; [|apply np_zeros_well_shaped].
    apply Forall_fmap, Forall_forall. intros m _. split; [done|].
    apply Gaussian2D_call_well_shaped.
Qed.

Lemma RandomState_uniform_length prng low high n w c w' :
  RandomState_uniform prng low high n w = (Ok c, w') → length c = n.
Proof.
  unfold RandomState_uniform, or_raise. destruct (uniform_invalid low high); [done|].
  unfold sample. destruct (generator_of prng w) as [g|]; [|done].
  pose proof (draws_length (uniform1 low high) n g) as Hl.
  destruct (draws _ _ g) as [c' g']. simpl in Hl. by intros [= <- _].
Qed.

Lemma Table_setitem_first name (c : Column) : Table_setitem [] name c = Ok [(name, c)].
Proof. done. Qed.

Ltac drawn_column :=
  match goal with
  | |- context [RandomState_uniform ?p ?low ?high ?n ?w] =>
      let c := fresh "c" in
      let w' := fresh "w" in
      let E := fresh "E" in
      destruct (RandomState_uniform p low high n w) as [[c|?] w'] eqn:E;
        [|by simpl];
      apply RandomState_uniform_length in E
  end.

Lemma make_random_gaussians_returned n_sources flux_range xmean_range ymean_range
    xstddev_range ystddev_range amplitude_range random_state w table :
  (make_random_gaussians n_sources flux_range xmean_range ymean_range xstddev_range
     ystddev_range amplitude_range random_state w).1 = Ok table →
  Table_wf table = true ∧ has_required_columns table = true ∧
  Table_len table = n_sources ∧
  colnames table = random_column_names flux_range amplitude_range.
Proof.
  unfold make_random_gaussians, mbind, Comp_bind.
  destruct (check_random_state random_state w) as [[prng|e] w0]; [|done].
  destruct amplitude_range as [amplitude_range|].
  all: do 6 (drawn_column; unfold lift; cbv beta iota;
             rewrite ?Table_setitem_first;
             try rewrite Table_setitem_new by
               (first [done | simpl; congruence | by apply (bool_decide_unpack _)]);
             cbv beta iota).
  all: simpl; intros [= <-].
  all: split;
    [apply (random_table_wf _ _ _ _ _ _ _ n_sources);
       [apply (bool_decide_unpack _); vm_compute; exact I|done..]|].
  all: by repeat split.
Qed.

(** X8: every table that [make_random_gaussians] returns is one that
    [make_gaussian_sources] accepts: its columns have [n_sources] cells each
    and the required names, and for every shape [make_gaussian_sources]
    with [oversample] 1 returns an image of that shape for it, in every call
    in which the header asked for can be made. *)
Theorem make_random_gaussians_feeds_make_gaussian_sources n_sources flux_range
    xmean_range ymean_range xstddev_range ystddev_range amplitude_range random_state w
    table image_shape :
  (make_random_gaussians n_sources flux_range xmean_range ymean_range xstddev_range
     ystddev_range amplitude_range random_state w).1 = Ok table →
  Table_wf table = true ∧ has_required_columns table = true ∧
  Table_len table = n_sources ∧
  ∃ image, returns_image image_shape table 1 image ∧
           nd_shape image = image_shape ∧ nd_well_shaped image.
Proof.
  intros (Hwf & Hreq & Hlen & _)%make_random_gaussians_returned.
  repeat (split; [done|]). by apply point_sampled_image.
Qed.

(** *** The example images: reproducible, and of a fixed shape *)

Lemma seeded_noise_outcome image_shape type mean stddev unit seed w1 w2 :
  (make_noise_image image_shape type mean stddev unit (RS_Seed seed) w1).1
  = (make_noise_image image_shape type mean stddev unit (RS_Seed seed) w2).1.
Proof.
  destruct mean as [mean|]; [|done].
  destruct (make_noise_image_runs image_shape type mean stddev unit) as [pure Hpure].
  unfold make_noise_image. by rewrite !(seeded_outcome _ pure seed _ Hpure).
Qed.

Lemma seeded_table_outcome n_sources flux_range xmean_range ymean_range xstddev_range
    ystddev_range amplitude_range seed w1 w2 :
  (make_random_gaussians n_sources flux_range xmean_range ymean_range xstddev_range
     ystddev_range amplitude_range (RS_Seed seed) w1).1
  = (make_random_gaussians n_sources flux_range xmean_range ymean_range xstddev_range
       ystddev_range amplitude_range (RS_Seed seed) w2).1.
Proof.
  destruct (make_random_gaussians_runs n_sources flux_range xmean_range ymean_range
              xstddev_range ystddev_range amplitude_range) as [pure Hpure].
  unfold make_random_gaussians. by rewrite !(seeded_outcome _ pure seed _ Hpure).
Qed.

Lemma untouched_refl w : untouched w w.
Proof. by split. Qed.



Lemma reproducible_lift {A} (r : result A) : reproducible (lift r).
Proof. exists r. intros w. split; [done|apply untouched_refl]. Qed.

Lemma reproducible_ret {A} (a : A) : reproducible (mret a : Comp A).
Proof. exists (Ok a). intros w. split; [done|apply untouched_refl]. Qed.

Lemma reproducible_raise {A} e : reproducible (raise (A:=A) e).
Proof. exists (Raise e). intros w. split; [done|apply untouched_refl]. Qed.

Lemma reproducible_bind {A B} (m : Comp A) (k : A → Comp B) :
  reproducible m → (∀ a, reproducible (k a)) → reproducible (m ≫= k).
Proof.
  intros [r Hm] Hk. destruct r as [a|e].
  - destruct (Hk a) as [r' Hka]. exists r'. intros w.
    unfold mbind, Comp_bind. destruct (Hm w) as [Hr Hu].
    destruct (m w) as [r0 w1]. simpl in *. subst r0.
    destruct (Hka w1) as [Hr' Hu']. split; [done|by eapply untouched_trans].
  - exists (Raise e). intros w. unfold mbind, Comp_bind.
    destruct (Hm w) as [Hr Hu]. destruct (m w) as [r0 w1]. simpl in *. by subst r0.
Qed.

Lemma reproducible_seeded_noise image_shape type mean stddev unit seed :
  reproducible (make_noise_image image_shape type mean stddev unit (RS_Seed seed)).
Proof.
  exists (make_noise_image image_shape type mean stddev unit (RS_Seed seed)
            (MkWorld (seeded 0) ∅)).1.
  intros w. split; [apply seeded_noise_outcome|].
  apply (make_noise_image_changes image_shape type mean stddev unit (RS_Seed seed)).
Qed.

Lemma reproducible_seeded_table n_sources flux_range xmean_range ymean_range
    xstddev_range ystddev_range amplitude_range seed :
  reproducible (make_random_gaussians n_sources flux_range xmean_range ymean_range
                  xstddev_range ystddev_range amplitude_range (RS_Seed seed)).
Proof.
  exists (make_random_gaussians n_sources flux_range xmean_range ymean_range
            xstddev_range ystddev_range amplitude_range (RS_Seed seed)
            (MkWorld (seeded 0) ∅)).1.
  intros w. split; [apply seeded_table_outcome|].
  apply (make_random_gaussians_changes n_sources flux_range xmean_range ymean_range
           xstddev_range ystddev_range amplitude_range (RS_Seed seed)).
Qed.

Lemma reproducible_4gaussians hdu wcs wcsheader :
  reproducible (make_4gaussians_image hdu wcs wcsheader).
Proof.
  unfold make_4gaussians_image.
  apply reproducible_bind; [apply reproducible_lift|]. intros table.
  apply reproducible_bind; [apply reproducible_lift|]. intros sources.
  apply reproducible_bind; [apply reproducible_seeded_noise|]. intros noise.
  destruct hdu; [|apply reproducible_lift].
  destruct sources; try apply reproducible_raise.
  apply reproducible_bind; [apply reproducible_lift|]. intros data.
  apply reproducible_ret.
Qed.

Lemma reproducible_100gaussians : reproducible make_100gaussians_image.
Proof.
  unfold make_100gaussians_image. cbv zeta.
  apply reproducible_bind; [apply reproducible_seeded_table|]. intros table.
  apply reproducible_bind; [apply reproducible_lift|]. intros sources.
  apply reproducible_bind; [apply reproducible_seeded_noise|]. intros noise.
  apply reproducible_lift.
Qed.

(** X9: the two example images are the same whenever they are made, and making
    them leaves numpy's global generator and every existing [RandomState] as
    they were: both seed generators of their own. *)
Theorem example_images_are_reproducible (w w' : World) hdu wcs wcsheader :
  (make_4gaussians_image hdu wcs wcsheader w).1
  = (make_4gaussians_image hdu wcs wcsheader w').1 ∧
  untouched w (make_4gaussians_image hdu wcs wcsheader w).2 ∧
  (make_100gaussians_image w).1 = (make_100gaussians_image w').1 ∧
  untouched w (make_100gaussians_image w).2.
Proof.
  destruct (reproducible_4gaussians hdu wcs wcsheader) as [r4 H4].
  destruct reproducible_100gaussians as [r100 H100].
  destruct (H4 w) as [-> ?], (H4 w') as [-> _].
  destruct (H100 w) as [-> ?], (H100 w') as [-> _]. done.
Qed.

Lemma add_sources_point_shape image_shape oversample t a rows image image' :
  PrimFloat.eqb oversample 1 = true →
  nd_shape image = image_shape → nd_well_shaped image →
  add_sources image_shape oversample (np_indices image_shape).2
    (np_indices image_shape).1 t a rows image = Ok image' →
  nd_shape image' = image_shape ∧ nd_well_shaped image'.
Proof.
  intros H1. revert image. induction rows as [|i rows IH]; intros image Hs Hw.
  - by intros [= <-].
  - cbn [add_sources]. destruct (source_model t a i) as [m|e]; [|done].
    unfold source_image. rewrite H1. cbn [mbind result_bind].
    unfold nd_binop. destruct (decide _) as [Heq|]; [|done].
    cbn [mbind result_bind]. apply IH; [done|].
    apply nd_zip_with_well_shaped; [done..|apply Gaussian2D_call_well_shaped].
Qed.

(** With [oversample] 1, whatever comes back has the shape of the image. *)
Lemma make_gaussian_sources_point_shape image_shape t oversample unit hdu wcs
    wcsheader v :
  PrimFloat.eqb oversample 1 = true →
  make_gaussian_sources image_shape t oversample unit hdu wcs wcsheader = Ok v →
  value_shape v = image_shape ∧ value_well_shaped v.
Proof.
  intros H1. unfold make_gaussian_sources.
  destruct (source_amplitudes t) as [a|e]; [|done]. cbn [mbind result_bind].
  pose proof (add_sources_point_shape image_shape oversample t a
                (seq 0 (Table_len t)) (np_zeros image_shape)) as Hloop.
  cbn [np_indices fst snd] in *.
  destruct (add_sources _ _ _ _ _ _ _ _) as [image|e]; [|done].
  destruct (Hloop image H1 eq_refl (np_zeros_well_shaped _) eq_refl) as [Hs Hw].
  destruct unit as [u|], wcs, hdu, wcsheader as [d|]; simpl;
    intros [= <-] || intros [=]; done.
Qed.

Lemma gaussian_noise_array image_shape mean stddev random_state w v :
  (make_noise_image image_shape "gaussian" (Some mean) (Some stddev) None
     random_state w).1 = Ok v →
  ∃ a, v = Ndarray a ∧ nd_shape a = image_shape ∧ nd_well_shaped a.
Proof.
  unfold make_noise_image, mbind, Comp_bind.
  destruct (check_random_state random_state w) as [[prng|e] w0]; [|done].
  simpl. unfold fmap, Comp_fmap.
  pose proof (RandomState_normal_shape prng mean stddev image_shape w0) as Hs.
  destruct (RandomState_normal _ _ _ _ w0) as [[a|e] w1]; [|done].
  simpl. intros [= <-]. exists a. split; [done|]. by apply Hs.
Qed.

Lemma value_add_shape image_shape x n v :
  value_shape x = image_shape → value_well_shaped x →
  nd_shape n = image_shape → nd_well_shaped n →
  value_add x (Ndarray n) = Ok v →
  value_shape v = image_shape ∧ value_well_shaped v.
Proof.
  intros Hs Hw Hns Hnw. destruct x as [a| | |]; try done. simpl in *.
  unfold nd_binop. destruct (decide _) as [Heq|]; [|done]. simpl.
  intros [= <-]. split; [done|]. by apply nd_zip_with_well_shaped.
Qed.

(** X10: whenever they return, [make_4gaussians_image] returns an image of 100
    rows and 200 columns, in an HDU or not, and [make_100gaussians_image] one
    of 300 rows and 500 columns. *)
Theorem example_images_shape (w : World) hdu wcs wcsheader v :
  ((make_4gaussians_image hdu wcs wcsheader w).1 = Ok v →
   value_shape v = (100, 200) ∧ value_well_shaped v) ∧
  ((make_100gaussians_image w).1 = Ok v →
   value_shape v = (300, 500) ∧ value_well_shaped v).
Proof.
  split.
  - unfold make_4gaussians_image. rewrite four_gaussians_table_rows.
    unfold mbind at 1, Comp_bind at 1, lift at 1. cbv beta iota.
    unfold mbind at 1, Comp_bind at 1, lift at 1.
    pose proof (make_gaussian_sources_point_shape (100, 200) four_rows 1 None hdu
                  wcs wcsheader) as Hsrc.
    revert Hsrc.
    generalize (make_gaussian_sources (100, 200) four_rows 1 None hdu wcs wcsheader).
    intros [sources|e] Hsrc; [|done]. cbv beta iota.
    destruct (Hsrc sources eq_refl eq_refl) as [Hs Hw].
    unfold mbind at 1, Comp_bind at 1.
    pose proof (gaussian_noise_array (100, 200) 5 5 (RS_Seed 12345) w) as Hnoise.
    destruct (make_noise_image _ _ _ _ _ _ w) as [[noise|e] w1]; [|done].
    destruct (Hnoise noise eq_refl) as (n & -> & Hns & Hnw). cbv beta iota.
    destruct hdu.
    + destruct sources as [| | |data header]; try done.
      unfold mbind, Comp_bind, lift.
      pose proof (value_add_shape (100, 200) data n) as Hadd.
      destruct (value_add data (Ndarray n)) as [data'|e]; [|done].
      cbn [fst mret Comp_ret]. intros [= <-].
      cbn [value_shape value_well_shaped] in *. by apply Hadd.
    + unfold lift. cbn [fst]. by apply value_add_shape.
  - unfold make_100gaussians_image. cbv zeta.
    unfold mbind at 1, Comp_bind at 1.
    destruct (make_random_gaussians _ _ _ _ _ _ _ _ w) as [[table|e] w1]; [|done].
    unfold mbind at 1, Comp_bind at 1, lift at 1.
    pose proof (make_gaussian_sources_point_shape (300, 500) table 1 None false
                  false None) as Hsrc.
    revert Hsrc.
    generalize (make_gaussian_sources (300, 500) table 1 None false false None).
    intros [sources|e] Hsrc; [|done]. cbv beta iota.
    destruct (Hsrc sources eq_refl eq_refl) as [Hs Hw].
    unfold mbind at 1, Comp_bind at 1.
    pose proof (gaussian_noise_array (300, 500) 5 2 (RS_Seed 12345) w1) as Hnoise.
    destruct (make_noise_image _ _ _ _ _ _ w1) as [[noise|e] w2]; [|done].
    destruct (Hnoise noise eq_refl) as (n & -> & Hns & Hnw). cbv beta iota.
    unfold lift. cbn [fst]. by apply value_add_shape.
Qed.

Lemma four_rows_valid : Table_wf four_rows = true ∧ has_required_columns four_rows = true.
Proof. split; vm_compute; reflexivity. Qed.

(** X11: [make_4gaussians_image] with [wcs=True] and without [hdu] ends in the
    [ValueError] that asks for [hdu=True], before any noise is drawn: the
    store of generators is as it was. *)
Theorem make_4gaussians_image_wcs_needs_hdu (w : World) wcsheader :
  make_4gaussians_image false true wcsheader w
  = (Raise (ValueError wcs_not_hdu_message), w).
Proof.
  unfold make_4gaussians_image. rewrite four_gaussians_table_rows.
  unfold mbind at 1, Comp_bind at 1, lift at 1. cbv beta iota.
  rewrite (make_gaussian_sources_wcs_not_hdu (100, 200) four_rows 1 None wcsheader).
  - done.
  - apply point_sampled_returns; [apply four_rows_valid..|reflexivity].
Qed.

End Datasets.

(** ** The statements at work on the small instance *)

Lemma make_gaussian_sources_image_witness :
  ∃ image,
    @make_gaussian_sources toy (2, 3) toy_table 1 None false false None
      = Ok (Ndarray image) ∧
    nd_shape image = (2, 3) ∧
    pixel image 0 1 = Some (10 / (2 * np_pi * 1 * 1) + 0)%float.
Proof.
  destruct (@make_gaussian_sources_image toy (2, 3) toy_table 1)
    as (a & models & Ha & Hmodels & Hpoint & _); [reflexivity..|].
  destruct (Hpoint eq_refl) as (image & Hret & Hshape & _ & Hpixel).
  destruct (Hret None false false None eq_refl) as (v & Hv & _ & Hplain).
  exists image. rewrite Hv, (Hplain eq_refl eq_refl).
  split; [reflexivity|]. split; [exact Hshape|].
  rewrite (Hpixel 0 1) by (simpl; lia).
  vm_compute in Ha. injection Ha as <-.
  repeat (apply Forall2_cons_inv_l in Hmodels as (? & ? & Hm & Hmodels & ->);
          vm_compute in Hm; injection Hm as <-).
  apply Forall2_nil_inv_l in Hmodels as ->. reflexivity.
Defined.

Lemma make_noise_image_invalid_type_witness :
  @make_noise_image toy (2, 3) "uniform" (Some 1%float) None None RS_None
    (@MkWorld toy 5%Z ∅)
  = (Raise (KeyError alternatives_key), @MkWorld toy 5%Z ∅).
Proof.
  apply (@make_noise_image_invalid_type toy (2, 3) "uniform" 1%float None None
           RS_None (@MkWorld toy 5%Z ∅) GlobalRand (@MkWorld toy 5%Z ∅)).
  - apply (bool_decide_unpack _). vm_compute. exact I.
  - apply (bool_decide_unpack _). vm_compute. exact I.
  - reflexivity.
Defined.

Lemma make_noise_image_required_parameters_witness :
  ∃ image,
    (@make_noise_image toy (2, 3) "poisson" (Some 1%float) None None (RS_Seed 7)
       (@MkWorld toy 5%Z ∅)).1 = Ok image.
Proof.
  destruct (@make_noise_image_required_parameters toy (2, 3) "poisson" None None None
              (RS_Seed 7) (@MkWorld toy 5%Z ∅)) as (_ & _ & _ & Hpoisson).
  apply (Hpoisson 1%float).
  - simpl. lia.
  - reflexivity.
Defined.

Lemma make_gaussian_sources_needs_amplitude_witness :
  @make_gaussian_sources toy (2, 3) toy_table_without_flux 1 None false false None
  = Raise (ValueError no_amplitude_message).
Proof.
  apply (@make_gaussian_sources_needs_amplitude toy); reflexivity.
Defined.

Lemma make_random_gaussians_table_witness :
  ∃ table,
    (@make_random_gaussians toy 3 (1, 2)%float (0, 10)%float (0, 10)%float
       (1, 5)%float (1, 5)%float None (RS_Seed 7) (@MkWorld toy 5%Z ∅)).1 = Ok table ∧
    colnames table = ["flux"; "x_mean"; "y_mean"; "x_stddev"; "y_stddev"; "theta"] ∧
    Table_len table = 3.
Proof.
  destruct (@make_random_gaussians_table toy 3 (1, 2)%float (0, 10)%float
              (0, 10)%float (1, 5)%float (1, 5)%float None (RS_Seed 7)
              (@MkWorld toy 5%Z ∅) 7%Z)
    as (table & Htable & Hnames & Hlen & _).
  - reflexivity.
  - repeat constructor.
  - exists table. split; [exact Htable|]. split; [exact Hnames|exact Hlen].
Defined.

Lemma make_gaussian_sources_flux_first_witness :
  @make_gaussian_sources toy (2, 3) toy_table_with_amplitude 1 None false false None
  = @make_gaussian_sources toy (2, 3) toy_table 1 None false false None.
Proof.
  apply (@make_gaussian_sources_flux_first toy (2, 3) toy_table_with_amplitude
           toy_table 1 None false false None); reflexivity.
Defined.

Lemma make_gaussian_sources_wcs_needs_hdu_witness :
  @make_gaussian_sources toy (2, 3) toy_table 1 None false true None
  = Raise (ValueError wcs_not_hdu_message).
Proof.
  destruct (@make_gaussian_sources_wcs_needs_hdu toy (2, 3) toy_table 1 None None)
    as (_ & Hraise & _).
  apply Hraise. right. repeat split; reflexivity.
Defined.

Lemma make_noise_image_shape_witness :
  value_shape (@Quantity toy (NdArray (2, 3) [[2; 3; 4]; [0; 1; 2]]%float) "adu")
  = (2, 3).
Proof.
  refine (proj1 (@make_noise_image_shape toy (2, 3) "poisson" (Some 1%float) None
                   (Some "adu") (RS_Seed 7) (@MkWorld toy 5%Z ∅) _ _)).
  reflexivity.
Defined.

Lemma make_poisson_noise_shape_witness :
  nd_shape (NdArray (1, 2) [[0; 1]%Z]) = nd_shape (NdArray (1, 2) [[1; 2]%float]) ∧
  length <$> [[0; 1]%Z] = length <$> [[1; 2]%float].
Proof.
  apply (@make_poisson_noise_shape toy (Ndarray (NdArray (1, 2) [[1; 2]%float])) RS_None
           (@MkWorld toy 5%Z ∅) (NdarrayInt (NdArray (1, 2) [[0; 1]%Z]))).
  reflexivity.
Defined.

Lemma make_gaussian_sources_ignores_other_columns_witness :
  @make_gaussian_sources toy (2, 3) (drop_column "id" toy_table_with_id) 1 None false
    false None
  = @make_gaussian_sources toy (2, 3) toy_table_with_id 1 None false false None.
Proof.
  apply (@make_gaussian_sources_ignores_other_columns toy).
  - reflexivity.
  - apply (bool_decide_unpack _). vm_compute. exact I.
Defined.

Lemma make_gaussian_sources_any_column_order_witness :
  @make_gaussian_sources toy (2, 3) toy_table 1 None false false None
  = @make_gaussian_sources toy (2, 3) (reverse toy_table) 1 None false false None.
Proof.
  apply (@make_gaussian_sources_any_column_order toy).
  - reflexivity.
  - symmetry. apply reverse_Permutation.
Defined.

Lemma make_gaussian_sources_missing_column_witness :
  @make_gaussian_sources toy (2, 3) toy_table_without_theta 1 None false false None
  = Raise (KeyError "theta").
Proof.
  destruct (@make_gaussian_sources_missing_column toy (2, 3) toy_table_without_theta 1
              None false false None) as (_ & _ & Hmissing).
  apply (Hmissing [7; 9]%float "theta" ["x_mean"; "y_mean"; "x_stddev"; "y_stddev"] []).
  - reflexivity.
  - reflexivity.
  - simpl. lia.
  - reflexivity.
  - repeat constructor.
  - reflexivity.
Defined.

Lemma make_gaussian_sources_no_rows_witness :
  @make_gaussian_sources toy (2, 3) [("amplitude", [])] 2 None false false None
  = Ok (Ndarray (np_zeros (2, 3))).
Proof.
  destruct (@make_gaussian_sources_no_rows toy (2, 3) [("amplitude", [])] 2 []
              eq_refl eq_refl None false false None eq_refl)
    as (v & Hv & _ & Hplain).
  rewrite Hv. f_equal. apply Hplain; reflexivity.
Defined.

Lemma make_random_gaussians_feeds_make_gaussian_sources_witness :
  ∃ table image,
    (@make_random_gaussians toy 3 (1, 2)%float (0, 10)%float (0, 10)%float
       (1, 5)%float (1, 5)%float None (RS_Seed 7) (@MkWorld toy 5%Z ∅)).1 = Ok table ∧
    @make_gaussian_sources toy (4, 5) table 1 None false false None
    = Ok (Ndarray image) ∧
    nd_shape image = (4, 5).
Proof.
  destruct (@make_random_gaussians toy 3 (1, 2)%float (0, 10)%float (0, 10)%float
              (1, 5)%float (1, 5)%float None (RS_Seed 7) (@MkWorld toy 5%Z ∅)).1
    as [table|e] eqn:E; [|vm_compute in E; discriminate E].
  destruct (@make_random_gaussians_feeds_make_gaussian_sources toy 3 (1, 2)%float
              (0, 10)%float (0, 10)%float (1, 5)%float (1, 5)%float None (RS_Seed 7)
              (@MkWorld toy 5%Z ∅) table (4, 5) E)
    as (_ & _ & _ & image & Hret & Hshape & _).
  destruct (Hret None false false None eq_refl) as (v & Hv & _ & Hplain).
  exists table, image. split; [reflexivity|]. split; [|exact Hshape].
  rewrite Hv. f_equal. apply Hplain; reflexivity.
Defined.

Lemma example_images_shape_witness :
  ∃ v, (@make_4gaussians_image toy false false None (@MkWorld toy 5%Z ∅)).1 = Ok v ∧
       value_shape v = (100, 200).
Proof.
  destruct (@make_4gaussians_image toy false false None (@MkWorld toy 5%Z ∅)).1
    as [v|e] eqn:E; [|vm_compute in E; discriminate E].
  exists v. split; [reflexivity|].
  apply (proj1 (@example_images_shape toy (@MkWorld toy 5%Z ∅) false false None v)), E.
Defined.

(** ** Runs of the model *)

Example str_format_positional :
  str_format "Invalid type: {0}. Use one of {{a, b}}." ["uniform"]
  = Ok "Invalid type: uniform. Use one of {a, b}.".
Proof. reflexivity. Qed.

Example str_format_named : str_format "{0} and {name}" ["x"] = Raise (KeyError "name").
Proof. reflexivity. Qed.

Example str_format_automatic : str_format "{}-{}" ["x"; "y"] = Ok "x-y".
Proof. reflexivity. Qed.

Example str_format_single_brace :
  str_format "a } b" [] = Raise (ValueError "Single '}' encountered in format string").
Proof. reflexivity. Qed.

Example four_rows_shape : Table_len four_rows = 4 ∧ Table_wf four_rows = true.
Proof. split; reflexivity. Qed.

(** Without a seed the image depends on the global generator: two calls, one
    after the other, give different images.  With a seed they give the same. *)
Example unseeded_calls_differ :
  let first := @make_noise_image toy (1, 2) "gaussian" (Some 1%float) (Some 2%float)
                 None RS_None (@MkWorld toy 5%Z ∅) in
  let second := @make_noise_image toy (1, 2) "gaussian" (Some 1%float) (Some 2%float)
                  None RS_None first.2 in
  first.1 = Ok (Ndarray (NdArray (1, 2) [[5; 1]%float])) ∧
  second.1 = Ok (Ndarray (NdArray (1, 2) [[3; 5]%float])).
Proof. split; reflexivity. Qed.

Example seeded_calls_agree :
  let first := @make_noise_image toy (1, 2) "gaussian" (Some 1%float) (Some 2%float)
                 None (RS_Seed 7) (@MkWorld toy 5%Z ∅) in
  let second := @make_noise_image toy (1, 2) "gaussian" (Some 1%float) (Some 2%float)
                  None (RS_Seed 7) first.2 in
  first.1 = Ok (Ndarray (NdArray (1, 2) [[3; 5]%float])) ∧
  second.1 = Ok (Ndarray (NdArray (1, 2) [[3; 5]%float])).
Proof. split; reflexivity. Qed.
